(** * DeadSocketDropper: the connection-lifecycle reconciler of [main.go]

    A shallow embedding of [monitorConnections], [listCurrentConnections]
    and [killConnection], with the library calls they rely on
    ([strings.Fields], [strings.Split], [regexp.FindStringSubmatch],
    [bufio.Scanner], [time.Time.Sub], [time.Duration] arithmetic,
    [time.NewTicker]), followed by the
    properties of the tracking table that the specification states.

    Go strings are byte sequences: they are modelled as [string], each
    [ascii] being one byte.  The table [connections] is a Go
    [map[string]*ConnectionInfo]; every pointer stored in it is stored under
    exactly one key (its own inode, at the single insertion site) and the
    list returned by [listCurrentConnections] is dropped at the end of the
    cycle, so a finite map of records ([gmap string ConnectionInfo]) with
    in-place updates written as re-insertion at the same key is faithful. *)

From Stdlib Require Import ZArith Ascii String.
From stdpp Require Import gmap strings list fin_maps.

Local Open Scope Z_scope.

(** ** Byte strings: the library functions used by the parser *)

Module GoStrings.

Definition byte (a : ascii) : N := N_of_ascii a.

(** [strings.asciiSpace]: tab, line feed, vertical tab, form feed,
    carriage return, space. *)
Definition asciiSpace (a : ascii) : bool :=
  let n := byte a in
  ((9 <=? n)%N && (n <=? 13)%N) || (n =? 32)%N.

(** Width in bytes of the white-space rune ([unicode.IsSpace]) that starts
    the string, 0 when the string does not start with one.  Besides the
    six ASCII characters these are U+0085, U+00A0, U+1680, U+2000..U+200A,
    U+2028, U+2029, U+202F, U+205F and U+3000, recognised by their UTF-8
    encodings.  A lead byte is never a continuation byte, so the decoder
    of [range s] always starts a rune where such an encoding starts. *)
Definition spaceWidth (s : string) : nat :=
  match s with
  | EmptyString => 0%nat
  | String a s1 =>
    if asciiSpace a then 1%nat else
    match s1 with
    | EmptyString => 0%nat
    | String b s2 =>
      let x := byte a in
      let y := byte b in
      if (x =? 194)%N then
        (if (y =? 133)%N || (y =? 160)%N then 2%nat else 0%nat)
      else
        match s2 with
        | EmptyString => 0%nat
        | String c _ =>
          let z := byte c in
          if (x =? 225)%N then
            (if (y =? 154)%N && (z =? 128)%N then 3%nat else 0%nat)
          else if (x =? 226)%N then
            (if (y =? 128)%N
             then (if ((128 <=? z)%N && (z <=? 138)%N)
                      || (z =? 168)%N || (z =? 169)%N || (z =? 175)%N
                   then 3%nat else 0%nat)
             else if (y =? 129)%N && (z =? 159)%N then 3%nat else 0%nat)
          else if (x =? 227)%N then
            (if (y =? 128)%N && (z =? 128)%N then 3%nat else 0%nat)
          else 0%nat
        end
    end
  end.

Definition snoc (s : string) (a : ascii) : string := s +:+ String a "".

(** The field collected so far, if any. *)
Definition flush (cur : string) : list string :=
  match cur with
  | EmptyString => []
  | _ => [cur]
  end.

(** [strings.Fields]: the maximal runs of bytes between white-space
    runes.  [skip] counts the remaining bytes of a multi-byte white-space
    rune, [cur] is the field being collected. *)
Fixpoint fieldsGo (skip : nat) (cur : string) (s : string) : list string :=
  match s with
  | EmptyString => flush cur
  | String a s' =>
    match skip with
    | S k => fieldsGo k cur s'
    | O =>
      match spaceWidth s with
      | O => fieldsGo 0 (snoc cur a) s'
      | S k => flush cur ++ fieldsGo k "" s'
      end
    end
  end.

Definition Fields (s : string) : list string := fieldsGo 0 "" s.

Fixpoint isPrefix (p s : string) : bool :=
  match p, s with
  | EmptyString, _ => true
  | String a p', String b s' => (byte a =? byte b)%N && isPrefix p' s'
  | String _ _, EmptyString => false
  end.

(** [strings.Split s sep] for a non-empty separator (the program only
    splits on [" -> "]): cut at every occurrence of [sep] found scanning
    from the left, the search resuming after the occurrence. *)
Fixpoint splitGo (sep : string) (skip : nat) (cur : string) (s : string)
  : list string :=
  match s with
  | EmptyString => [cur]
  | String a s' =>
    match skip with
    | S k => splitGo sep k cur s'
    | O =>
      if isPrefix sep s
      then cur :: splitGo sep (String.length sep - 1) "" s'
      else splitGo sep 0 (snoc cur a) s'
    end
  end.

Definition Split (s sep : string) : list string := splitGo sep 0 "" s.

Definition isDigit (a : ascii) : bool :=
  (48 <=? byte a)%N && (byte a <=? 57)%N.

(** The longest run of digits at the head: the greedy [[0-9]+]. *)
Fixpoint takeDigits (s : string) : string :=
  match s with
  | EmptyString => ""
  | String a s' => if isDigit a then String a (takeDigits s') else ""
  end.

Fixpoint dropBytes (n : nat) (s : string) : string :=
  match n, s with
  | O, _ => s
  | S k, String _ s' => dropBytes k s'
  | S _, EmptyString => ""
  end.

(** A match of [ino:([0-9]+)] that starts at the head of [s]: the whole
    match and the captured group. *)
Definition matchInodeHere (s : string) : list string :=
  if isPrefix "ino:" s then
    match takeDigits (dropBytes 4 s) with
    | EmptyString => []
    | d => ["ino:" +:+ d; d]
    end
  else [].

(** [inodeRegex.FindStringSubmatch]: the leftmost match, [[]] (nil) when
    there is none. *)
Fixpoint FindStringSubmatch (s : string) : list string :=
  match matchInodeHere s with
  | [] =>
    match s with
    | EmptyString => []
    | String _ s' => FindStringSubmatch s'
    end
  | m => m
  end.

(** [fmt.Sprintf("%s -> %s", a, b)]. *)
Definition SprintfArrow (a b : string) : string := a +:+ " -> " +:+ b.

End GoStrings.

Import GoStrings.

(** ** The line scanner *)

(** [bufio.NewScanner(stdout)] with its default split function
    [bufio.ScanLines] and its default buffer limit.  A line is handed out
    when its line feed is found within the [maxScanTokenSize] bytes the
    buffer can hold from the start of the line; a last line without line
    feed is handed out at the end of the output.  When the buffer is full
    and holds no line feed, [Scan] returns false with [ErrTooLong]: the
    loop over [scanner.Scan()] ends there, and the program never looks at
    [scanner.Err()]. *)
Module GoBufio.

(** [bufio.MaxScanTokenSize], 64 * 1024. *)
Definition maxScanTokenSize : N := 65536.

(** [dropCR]: one carriage return at the end of the line is dropped. *)
Fixpoint dropCR (s : string) : string :=
  match s with
  | EmptyString => ""
  | String a s' =>
    match s' with
    | EmptyString => if (byte a =? 13)%N then "" else s
    | _ => String a (dropCR s')
    end
  end.

(** [revApp r s]: the bytes of [r] in reverse order, followed by [s]. *)
Fixpoint revApp (r s : string) : string :=
  match r with
  | EmptyString => s
  | String a r' => revApp r' (String a s)
  end.

(** The tokens handed out from [s] on, [revcur] being the [n] bytes of the
    current line read so far, last byte first. *)
Fixpoint scanFrom (revcur : string) (n : N) (s : string) : list string :=
  match s with
  | EmptyString => if (n =? 0)%N then [] else [dropCR (revApp revcur "")]
  | String a s' =>
    if (byte a =? 10)%N then dropCR (revApp revcur "") :: scanFrom "" 0 s'
    else if (n + 1 =? maxScanTokenSize)%N then []
    else scanFrom (String a revcur) (n + 1) s'
  end.

(** The successive values of [scanner.Text()] in [for scanner.Scan()]. *)
Definition Scan (output : string) : list string := scanFrom "" 0 output.

End GoBufio.

Import GoBufio.

(** ** Time *)

(** A [time.Time] obtained from [time.Now()] carries a monotonic clock
    reading; [Sub] and the comparisons of two such values use it.  A time is
    that reading, in nanoseconds; a [time.Duration] is an int64 count of
    nanoseconds. *)
Module GoTime.

Definition minDuration : Z := - 2 ^ 63.
Definition maxDuration : Z := 2 ^ 63 - 1.

(** int64 arithmetic wraps around. *)
Definition wrap64 (z : Z) : Z := (z + 2 ^ 63) mod 2 ^ 64 - 2 ^ 63.

Definition Minute : Z := 60 * 1000000000.

(** [time.Duration(n) * time.Minute]. *)
Definition minutes (n : Z) : Z := wrap64 (wrap64 n * Minute).

(** [t.Sub(u)]: the difference, saturated to the range of a Duration. *)
Definition Sub (t u : Z) : Z :=
  let d := t - u in
  if d <? minDuration then minDuration
  else if maxDuration <? d then maxDuration
  else d.

End GoTime.

Import GoTime.

(** ** Data *)

Record ConnectionInfo := mkConn {
  Inode : string;
  TimeAdded : Z;
  LastSeen : Z;
  IsActive : bool;
  ConnectionID : string
}.

#[export] Instance ConnectionInfo_eq_dec : EqDecision ConnectionInfo.
Proof. solve_decision. Defined.

Definition setIsActive (b : bool) (c : ConnectionInfo) : ConnectionInfo :=
  mkConn (Inode c) (TimeAdded c) (LastSeen c) b (ConnectionID c).

Definition setLastSeen (t : Z) (c : ConnectionInfo) : ConnectionInfo :=
  mkConn (Inode c) (TimeAdded c) t (IsActive c) (ConnectionID c).

Definition setTimeAdded (t : Z) (c : ConnectionInfo) : ConnectionInfo :=
  mkConn (Inode c) t (LastSeen c) (IsActive c) (ConnectionID c).

(** The command-line flags. *)
Record Config := mkConfig {
  sourcePort : string;
  checkIntervalMin : Z;
  maxActiveDurMin : Z;
  maxInactiveDurMin : Z
}.

(** What one call of [killConnection] did: which return it took and, when
    it ran [ss --kill dst peer src local], whether the command succeeded. *)
Inductive KillResult :=
| KillNotFound
| KillInvalidID (connID : string)
| KillRan (peerAddr localAddr : string) (ok : bool).

(** The observable actions of a cycle: the lines printed or logged, and the
    calls of the termination actuator. *)
Inductive Event :=
| EvCycle
| EvListError
| EvInodeWarning (line : string)
| EvNewTracked (inode connID : string)
| EvKilling (inode connID : string)
| EvKillConnection (inode : string) (r : KillResult)
| EvRemoving (inode connID : string)
| EvTotal (n : nat).

#[export] Instance KillResult_eq_dec : EqDecision KillResult.
Proof. solve_decision. Defined.

#[export] Instance Event_eq_dec : EqDecision Event.
Proof. solve_decision. Defined.

(** What the environment supplies to one cycle. *)
Record Env := mkEnv {
  (** [ss -tnpeH src :port]: [None] when [StdoutPipe] or [Start] fails,
      otherwise the bytes that the command writes to its standard output
      before it exits ([cmd.Wait()] then returns; its error is ignored).  A
      cycle in which the command never exits blocks in [cmd.Wait()] and
      has no result: the cycles described are the ones that end. *)
  ssOutput : option string;
  (** [time.Now()] at the start of the merge. *)
  now : Z;
  (** The order in which [range connections] produces the keys. *)
  rangeOrder : gmap string ConnectionInfo -> list string;
  (** [ss --kill dst peer src local]: [true] when [err == nil]. *)
  ssKill : string -> string -> bool
}.

(** The lines that the loop over [scanner.Scan()] receives, when the command
    started. *)
Definition ssLines (e : Env) : option (list string) :=
  match ssOutput e with
  | None => None
  | Some output => Some (Scan output)
  end.

(** The language fixes only that [range] produces every key once. *)
Definition rangeOk (e : Env) : Prop :=
  forall m : gmap string ConnectionInfo, rangeOrder e m ≡ₚ (map_to_list m).*1.

(** ** A state and output monad

    The state is the global [connections]; the output is the list of
    events, oldest first. *)

Definition M (A : Type) : Type := gmap string ConnectionInfo -> A * gmap string ConnectionInfo * list Event.

Definition ret {A} (a : A) : M A := fun m => (a, m, []).

Definition bind {A B} (c : M A) (f : A -> M B) : M B :=
  fun m =>
    match c m with
    | (a, m1, out1) =>
      match f a m1 with
      | (b, m2, out2) => (b, m2, out1 ++ out2)
      end
    end.

Definition getTable : M (gmap string ConnectionInfo) := fun m => (m, m, []).
Definition putTable (m' : gmap string ConnectionInfo) : M unit := fun _ => (tt, m', []).
Definition emit (e : Event) : M unit := fun m => (tt, m, [e]).

Declare Scope go_scope.
Delimit Scope go_scope with go.
Notation "'do' x <- c ; k" := (bind c (fun x => k))
  (at level 10, x name, c at level 100, k at level 200) : go_scope.
Notation "c ;; k" := (bind c (fun _ => k))
  (at level 100, k at level 200, right associativity) : go_scope.

Local Open Scope go_scope.

(** [for _, x := range l { body x }] over a slice. *)
Fixpoint forEach {A} (body : A -> M unit) (l : list A) : M unit :=
  match l with
  | [] => ret tt
  | x :: l' => body x ;; forEach body l'
  end.

Definition tableOf {A} (r : A * gmap string ConnectionInfo * list Event) : gmap string ConnectionInfo := r.1.2.
Definition outputOf {A} (r : A * gmap string ConnectionInfo * list Event) : list Event := r.2.
Definition valueOf {A} (r : A * gmap string ConnectionInfo * list Event) : A := r.1.1.

(** ** The program *)

(** The body of the scanner loop of [listCurrentConnections]. *)
Definition scanLine (line : string) (currentConnections : list ConnectionInfo)
  : M (list ConnectionInfo) :=
  let fields := Fields line in
  let matches := FindStringSubmatch line in
  if (length matches <? 2)%nat then
    emit (EvInodeWarning line) ;;
    ret currentConnections
  else
    let inode := matches !!! 1%nat in
    if (5 <=? length fields)%nat then
      let localAddr := fields !!! 3%nat in
      let peerAddr := fields !!! 4%nat in
      let connID := SprintfArrow localAddr peerAddr in
      ret (currentConnections ++ [mkConn inode 0 0 true connID])
    else ret currentConnections.

Fixpoint scanLines (lines : list string) (currentConnections : list ConnectionInfo)
  : M (list ConnectionInfo) :=
  match lines with
  | [] => ret currentConnections
  | line :: rest =>
    do acc <- scanLine line currentConnections ;
    scanLines rest acc
  end.

(** [listCurrentConnections]: [None] stands for the non-nil error.  The
    loop runs on the lines of [ssLines], that is on what the scanner hands
    out of the command's output. *)
Definition listCurrentConnections (e : Env) : M (option (list ConnectionInfo)) :=
  match ssLines e with
  | None => ret None
  | Some lines =>
    do conns <- scanLines lines [] ;
    ret (Some conns)
  end.

(** [killConnection]; the result doubles as the returned error
    ([KillRan _ _ true] is the nil error). *)
Definition killConnection (e : Env) (inode : string) : M KillResult :=
  do connections <- getTable ;
  match connections !! inode with
  | None =>
    emit (EvKillConnection inode KillNotFound) ;;
    ret KillNotFound
  | Some connInfo =>
    let parts := Split (ConnectionID connInfo) " -> " in
    if negb (length parts =? 2)%nat then
      emit (EvKillConnection inode (KillInvalidID (ConnectionID connInfo))) ;;
      ret (KillInvalidID (ConnectionID connInfo))
    else
      let localAddr := parts !!! 0%nat in
      let peerAddr := parts !!! 1%nat in
      let r := KillRan peerAddr localAddr (ssKill e peerAddr localAddr) in
      emit (EvKillConnection inode r) ;;
      ret r
  end.

(** First loop of [monitorConnections]: every entry is marked inactive. *)
Definition markAllInactive : M unit :=
  do connections <- getTable ;
  putTable (setIsActive false <$> connections).

(** Body of the second loop: refresh a tracked inode, or start tracking. *)
Definition mergeConn (now : Z) (currentConn : ConnectionInfo) : M unit :=
  do connections <- getTable ;
  match connections !! Inode currentConn with
  | Some connInfo =>
    putTable (<[Inode currentConn := setIsActive true (setLastSeen now connInfo)]> connections)
  | None =>
    putTable (<[Inode currentConn := setLastSeen now (setTimeAdded now currentConn)]> connections) ;;
    emit (EvNewTracked (Inode currentConn) (ConnectionID currentConn))
  end.

(** Body of the third loop, for the key [inode].  An entry deleted before
    it is reached is not produced by [range]. *)
Definition sweepConn (cfg : Config) (e : Env) (now : Z) (inode : string) : M unit :=
  do connections <- getTable ;
  match connections !! inode with
  | None => ret tt
  | Some conn =>
    let maxActiveDuration := minutes (maxActiveDurMin cfg) in
    if (maxActiveDuration <? Sub now (TimeAdded conn)) && IsActive conn then
      emit (EvKilling inode (ConnectionID conn)) ;;
      killConnection e inode ;;
      do connections <- getTable ;
      putTable (delete inode connections)
    else
      let maxInactiveDuration := minutes (maxInactiveDurMin cfg) in
      if maxInactiveDuration <? Sub now (LastSeen conn) then
        emit (EvRemoving inode (ConnectionID conn)) ;;
        do connections <- getTable ;
        putTable (delete inode connections)
      else ret tt
  end.

Definition mergeAll (now : Z) (currentConnsList : list ConnectionInfo) : M unit :=
  markAllInactive ;;
  forEach (mergeConn now) currentConnsList.

Definition sweepAll (cfg : Config) (e : Env) (now : Z) : M unit :=
  do connections <- getTable ;
  forEach (sweepConn cfg e now) (rangeOrder e connections).

Definition monitorConnections (cfg : Config) (e : Env) : M unit :=
  emit EvCycle ;;
  do listed <- listCurrentConnections e ;
  match listed with
  | None => emit EvListError
  | Some currentConnsList =>
    mergeAll (now e) currentConnsList ;;
    sweepAll cfg e (now e) ;;
    do connections <- getTable ;
    emit (EvTotal (size connections))
  end.

(** The loop of [main]: one cycle per element of [envs], on the table left
    by the previous one. *)
Fixpoint runCycles (cfg : Config) (envs : list Env) : M unit :=
  match envs with
  | [] => ret tt
  | e :: rest => monitorConnections cfg e ;; runCycles cfg rest
  end.

(** ** Sample inputs *)

Definition defaultConfig : Config := mkConfig "50090" 30 120 60.

Definition mapOrder (m : gmap string ConnectionInfo) : list string := (map_to_list m).*1.

(** The output that consists of the given lines, each ended by a line feed. *)
Fixpoint unlines (lines : list string) : string :=
  match lines with
  | [] => ""
  | line :: rest => line +:+ String (ascii_of_nat 10) (unlines rest)
  end.

Definition envAt (t : Z) (lines : list string) : Env :=
  mkEnv (Some (unlines lines)) (t * Minute) mapOrder (fun _ _ => true).

Definition lineAbc : string := "ESTAB 0 0 10.0.0.5:50090 10.0.0.9:41234 ino:101 sk:1".
Definition lineXyz : string := "ESTAB 0 0 10.0.0.5:50090 10.0.0.7:50000 ino:202 sk:2".

(** ** Notions used to state the properties *)


(** No byte of the string is the ASCII space. *)
Fixpoint noSpace (s : string) : bool :=
  match s with
  | EmptyString => true
  | String a s' => negb (byte a =? 32)%N && noSpace s'
  end.

(** The line holds ["ino:"] followed by a digit: the regular expression
    matches somewhere. *)
Definition hasInodePattern (s : string) : Prop :=
  exists (pre : string) (d : ascii) (post : string),
    s = pre +:+ "ino:" +:+ String d post /\ isDigit d = true.

(** The records and the log lines that one line contributes. *)
Definition lineRecords (line : string) : list ConnectionInfo :=
  valueOf (scanLine line [] ∅).

Definition lineOutput (line : string) : list Event :=
  outputOf (scanLine line [] ∅).

(** The records of a whole snapshot. *)
Definition parsed (lines : list string) : list ConnectionInfo :=
  valueOf (scanLines lines [] ∅).

(** A record built by the parser: active, and its ID is ["local -> peer"]
    for two fields of the line. *)
Definition wellFormedID (connID : string) : Prop :=
  exists l p : string,
    connID = SprintfArrow l p /\ noSpace l = true /\ noSpace p = true.

(** A refreshed entry: last seen now, active. *)
Definition refresh (now : Z) (c : ConnectionInfo) : ConnectionInfo :=
  setIsActive true (setLastSeen now c).

(** The entry that starts tracking an observed record. *)
Definition fresh (now : Z) (r : ConnectionInfo) : ConnectionInfo :=
  setLastSeen now (setTimeAdded now r).

(** The two rules of the third loop, as tested on an entry. *)
Definition killRule (cfg : Config) (now : Z) (c : ConnectionInfo) : bool :=
  (minutes (maxActiveDurMin cfg) <? Sub now (TimeAdded c)) && IsActive c.

Definition expiryRule (cfg : Config) (now : Z) (c : ConnectionInfo) : bool :=
  minutes (maxInactiveDurMin cfg) <? Sub now (LastSeen c).

(** What the sweep leaves of an entry. *)
Definition keep (cfg : Config) (now : Z) (c : ConnectionInfo) : option ConnectionInfo :=
  if killRule cfg now c || expiryRule cfg now c then None else Some c.

(** What [killConnection] does on a tracked entry. *)
Definition killResultOf (e : Env) (c : ConnectionInfo) : KillResult :=
  let parts := Split (ConnectionID c) " -> " in
  if (length parts =? 2)%nat
  then KillRan (parts !!! 1%nat) (parts !!! 0%nat)
               (ssKill e (parts !!! 1%nat) (parts !!! 0%nat))
  else KillInvalidID (ConnectionID c).

(** The number of calls [killConnection(inode)] in an output. *)
Fixpoint killCalls (inode : string) (out : list Event) : nat :=
  match out with
  | [] => 0
  | EvKillConnection i _ :: out' =>
    ((if bool_decide (i = inode) then 1 else 0) + killCalls inode out')%nat
  | _ :: out' => killCalls inode out'
  end.

(** The output of one step depends on the entry under its key only. *)
Definition sweepOutput (cfg : Config) (e : Env) (now : Z) (k : string)
    (o : option ConnectionInfo) : list Event :=
  match o with
  | None => []
  | Some c =>
    if killRule cfg now c
    then [EvKilling k (ConnectionID c); EvKillConnection k (killResultOf e c)]
    else if expiryRule cfg now c then [EvRemoving k (ConnectionID c)] else []
  end.

(** The inodes observed in a snapshot. *)
Definition observed (lines : list string) : list string := Inode <$> parsed lines.

(** The table after the second loop of a cycle whose snapshot is [lines]. *)
Definition merged (e : Env) (lines : list string) (m : gmap string ConnectionInfo)
  : gmap string ConnectionInfo :=
  tableOf (mergeAll (now e) (parsed lines) m).

(** The tables of a run of [main]: the table is empty at start-up and each
    cycle reads a clock that never runs backwards ([time.Now()] carries a
    monotonic reading).  The first index is the clock of the last cycle. *)
Inductive reachable (cfg : Config) : Z -> gmap string ConnectionInfo -> Prop :=
| reachable_start (t : Z) : reachable cfg t ∅
| reachable_cycle (t : Z) (m : gmap string ConnectionInfo) (e : Env) :
    reachable cfg t m -> rangeOk e -> t <= now e ->
    reachable cfg (now e) (tableOf (monitorConnections cfg e m)).

(** The clock readings of successive cycles, from [t] on, never decrease. *)
Fixpoint nondecreasing (t : Z) (envs : list Env) : Prop :=
  match envs with
  | [] => True
  | e :: rest => t <= now e /\ nondecreasing (now e) rest
  end.

(** What holds of every entry of a reachable table. *)
Definition entryOk (t : Z) (k : string) (c : ConnectionInfo) : Prop :=
  Inode c = k /\ TimeAdded c <= LastSeen c /\ LastSeen c <= t /\
  wellFormedID (ConnectionID c).

Definition tableOk (t : Z) (m : gmap string ConnectionInfo) : Prop :=
  forall (k : string) (c : ConnectionInfo), m !! k = Some c -> entryOk t k c.

(** More sample inputs. *)
Definition idAbc : string := "10.0.0.5:50090 -> 10.0.0.9:41234".

Definition tableAbc : gmap string ConnectionInfo :=
  {[ "101" := mkConn "101" 0 0 true idAbc ]}.

Definition failingKillEnv (t : Z) (lines : list string) : Env :=
  mkEnv (Some (unlines lines)) (t * Minute) mapOrder (fun _ _ => false).

Definition noListingEnv (t : Z) : Env :=
  mkEnv None (t * Minute) mapOrder (fun _ _ => true).

Definition lineNoInode : string := "ESTAB 0 0 10.0.0.5:50090 10.0.0.8:40000 uid:1000".

Definition lineShort : string := "ESTAB 0 10.0.0.5:50090 ino:303".

Definition lineAbcDup : string := "ESTAB 0 0 10.0.0.5:50090 10.0.0.6:55555 ino:101 sk:9".
Definition idDup : string := "10.0.0.5:50090 -> 10.0.0.6:55555".

Definition tableKilled : gmap string ConnectionInfo :=
  tableOf (monitorConnections defaultConfig (failingKillEnv 150 [lineAbc]) tableAbc).

(** max-active 120, max-inactive 60, check-interval 30; inode 101 plays
    [abc] and inode 202 plays [xyz]. *)
Definition runTo120 : unit * gmap string ConnectionInfo * list Event :=
  runCycles defaultConfig
    [envAt 0 [lineAbc; lineXyz]; envAt 30 [lineAbc]; envAt 60 [lineAbc];
     envAt 90 [lineAbc]; envAt 120 [lineAbc]] ∅.

(** A cycle at minute [t] that lists [lines]. *)
Definition cycleAt (e : Env) (t : Z) (lines : list string) : Prop :=
  rangeOk e /\ now e = t * Minute /\ ssLines e = Some lines.

(** The configuration of the example, on any port. *)
Definition exampleConfig (port : string) : Config := mkConfig port 30 120 60.

(** ** Notions used by the further properties *)

(** [strings.Join]. *)
Fixpoint Join (parts : list string) (sep : string) : string :=
  match parts with
  | [] => ""
  | p :: rest =>
    match rest with
    | [] => p
    | _ => p +:+ sep +:+ Join rest sep
    end
  end.

(** Every byte is a decimal digit. *)
Fixpoint allDigits (s : string) : bool :=
  match s with
  | EmptyString => true
  | String a s' => isDigit a && allDigits s'
  end.

Definition startsWithDigit (s : string) : bool :=
  match s with
  | EmptyString => false
  | String a _ => isDigit a
  end.

(** No byte is one of the six ASCII white-space characters. *)
Fixpoint noAsciiSpace (s : string) : bool :=
  match s with
  | EmptyString => true
  | String a s' => negb (asciiSpace a) && noAsciiSpace s'
  end.

(** The number of lines " + New connection tracked" for [inode] in an
    output. *)
Fixpoint newTracked (inode : string) (out : list Event) : nat :=
  match out with
  | [] => 0
  | EvNewTracked i _ :: out' =>
    ((if bool_decide (i = inode) then 1 else 0) + newTracked inode out')%nat
  | _ :: out' => newTracked inode out'
  end.

(** What [checkEnvironment] reads: [runtime.GOOS], whether
    [exec.LookPath("ss")] succeeds, and the Uid of [user.Current()]
    ([None] when that call fails). *)
Record Host := mkHost {
  GOOS : string;
  ssInPath : bool;
  currentUid : option string
}.

(** The four errors of [checkEnvironment]. *)
Inductive EnvError :=
| ErrNotLinux (goos : string)
| ErrNoSs
| ErrNoUser
| ErrNotRoot (uid : string).

(** [checkEnvironment]: [None] is the nil error. *)
Definition checkEnvironment (h : Host) : option EnvError :=
  if negb (String.eqb (GOOS h) "linux") then Some (ErrNotLinux (GOOS h))
  else if negb (ssInPath h) then Some ErrNoSs
  else
    match currentUid h with
    | None => Some ErrNoUser
    | Some uid =>
      if negb (String.eqb uid "0") then Some (ErrNotRoot uid) else None
    end.

(** What [main] prints or logs itself, the panic of [time.NewTicker], and
    the events of its cycles. *)
Inductive MainEvent :=
| MainFatal (err : EnvError)
| MainPort (port : string)
| MainCheckInterval (n : Z)
| MainMaxActive (n : Z)
| MainMaxInactive (n : Z)
| MainTickerPanic
| MainCycle (ev : Event).

(** The four lines that [main] prints once the environment is accepted. *)
Definition banner (cfg : Config) : list MainEvent :=
  [MainPort (sourcePort cfg); MainCheckInterval (checkIntervalMin cfg);
   MainMaxActive (maxActiveDurMin cfg); MainMaxInactive (maxInactiveDurMin cfg)].

(** [main] after [flag.Parse()], observed over the cycles [envs]: the table
    and the output.  [log.Fatalf] ends the program;
    [time.NewTicker(time.Duration(checkIntervalMin) * time.Minute)] panics
    when the duration is not positive, before the first cycle. *)
Definition main (cfg : Config) (h : Host) (envs : list Env)
  : gmap string ConnectionInfo * list MainEvent :=
  match checkEnvironment h with
  | Some err => (∅, [MainFatal err])
  | None =>
    if minutes (checkIntervalMin cfg) <=? 0
    then (∅, banner cfg ++ [MainTickerPanic])
    else
      let r := runCycles cfg envs ∅ in
      (tableOf r, banner cfg ++ (MainCycle <$> outputOf r))
  end.

(** The number of bytes of a string. *)
Fixpoint lengthN (s : string) : N :=
  match s with
  | EmptyString => 0
  | String _ s' => (1 + lengthN s')%N
  end.

(** No byte is a line feed. *)
Fixpoint noNewline (s : string) : bool :=
  match s with
  | EmptyString => true
  | String a s' => negb (byte a =? 10)%N && noNewline s'
  end.

(** 65536 spaces. *)
Definition longBlank : string := N.iter 65536 (String " ") "".

(** A line of more than 64 KiB without the inode pattern, and one with the
    pattern and a single field. *)
Definition lineLongNoInode : string := "ESTAB" +:+ longBlank.
Definition lineLongShort : string := "ino:303" +:+ longBlank.

Definition idXyz : string := "10.0.0.5:50090 -> 10.0.0.7:50000".

(** The cycle of [e] lists a snapshot in which [k] is, or is not, observed. *)
Definition observes (e : Env) (k : string) : Prop :=
  exists lines, ssLines e = Some lines /\ k ∈ observed lines.

Definition misses (e : Env) (k : string) : Prop :=
  exists lines, ssLines e = Some lines /\ k ∉ observed lines.

(** * Properties *)

Example Fields_ss_line :
  Fields "ESTAB 0      0      10.0.0.5:50090   10.0.0.9:41234  timer:(keepalive,10min,0) ino:12345 sk:1f"
  = ["ESTAB"; "0"; "0"; "10.0.0.5:50090"; "10.0.0.9:41234";
     "timer:(keepalive,10min,0)"; "ino:12345"; "sk:1f"].
Proof. reflexivity. Qed.

Example FindStringSubmatch_ss_line :
  FindStringSubmatch "ESTAB 0 0 a:1 b:2 uid:0 ino:12345 sk:1f" = ["ino:12345"; "12345"].
Proof. reflexivity. Qed.

Example FindStringSubmatch_leftmost :
  FindStringSubmatch "ino:x ino:7 ino:8" = ["ino:7"; "7"].
Proof. reflexivity. Qed.

Example Split_arrow :
  Split "10.0.0.5:50090 -> 10.0.0.9:41234" " -> " = ["10.0.0.5:50090"; "10.0.0.9:41234"].
Proof. reflexivity. Qed.

(** U+00A0 (bytes 194 160) and U+2003 (bytes 226 128 131) separate fields; a
    lone byte 226 does not. *)
Example Fields_unicode_space :
  Fields (String "a" (String (ascii_of_nat 194) (String (ascii_of_nat 160)
           (String "b" (String (ascii_of_nat 226) (String (ascii_of_nat 128)
             (String (ascii_of_nat 131) (String "c" (String (ascii_of_nat 226) "d")))))))))
  = ["a"; "b"; String "c" (String (ascii_of_nat 226) "d")].
Proof. reflexivity. Qed.

Example Fields_blank : Fields "  	 " = [].
Proof. reflexivity. Qed.

Example FindStringSubmatch_none : FindStringSubmatch "ESTAB 0 0 a b ino: 12" = [].
Proof. reflexivity. Qed.

Example Split_no_sep : Split "abc" " -> " = ["abc"].
Proof. reflexivity. Qed.

Example Split_three : Split "a -> b -> c" " -> " = ["a"; "b"; "c"].
Proof. reflexivity. Qed.

(** ** Byte strings *)

Section StringFacts.

Lemma append_cons (a : ascii) (s t : string) :
  String a s +:+ t = String a (s +:+ t).
Proof. reflexivity. Qed.

Lemma append_empty (t : string) : "" +:+ t = t.
Proof. reflexivity. Qed.

Lemma append_nil_r (s : string) : s +:+ "" = s.
Proof.
  induction s as [|a s IH]; [done |]. by rewrite append_cons, IH.
Qed.

Lemma append_assoc (s t u : string) : (s +:+ t) +:+ u = s +:+ (t +:+ u).
Proof.
  induction s as [|a s IH]; [done |]. by rewrite !append_cons, IH.
Qed.

Lemma snoc_append (cur : string) (a : ascii) (s : string) :
  snoc cur a +:+ s = cur +:+ String a s.
Proof. unfold snoc. by rewrite append_assoc. Qed.

Lemma noSpace_append (s t : string) :
  noSpace (s +:+ t) = noSpace s && noSpace t.
Proof.
  induction s as [|a s IH]; [done |].
  rewrite append_cons. simpl. rewrite IH. by rewrite andb_assoc.
Qed.

Lemma asciiSpace_32 (a : ascii) : (byte a =? 32)%N = true -> asciiSpace a = true.
Proof. unfold asciiSpace. intros ->. by rewrite orb_true_r. Qed.

Lemma spaceWidth_0_head (a : ascii) (s : string) :
  spaceWidth (String a s) = 0%nat -> (byte a =? 32)%N = false.
Proof.
  simpl. destruct (byte a =? 32)%N eqn:E; [|done].
  by rewrite (asciiSpace_32 _ E).
Qed.

Lemma flush_noSpace (cur : string) :
  noSpace cur = true -> Forall (fun f => noSpace f = true) (flush cur).
Proof. destruct cur; simpl; intros; by repeat constructor. Qed.

Lemma fieldsGo_noSpace (s : string) : forall (skip : nat) (cur : string),
  noSpace cur = true ->
  Forall (fun f => noSpace f = true) (fieldsGo skip cur s).
Proof.
  induction s as [|a s IH]; intros skip cur Hcur; cbn [fieldsGo].
  - by apply flush_noSpace.
  - destruct skip as [|k]; [|by apply IH].
    destruct (spaceWidth (String a s)) as [|k] eqn:E.
    + apply IH. unfold snoc. rewrite noSpace_append, Hcur. simpl.
      by rewrite (spaceWidth_0_head _ _ E).
    + apply Forall_app. split; [by apply flush_noSpace | by apply IH].
Qed.

(** A field never contains a space byte. *)
Lemma Fields_noSpace (s : string) :
  Forall (fun f => noSpace f = true) (Fields s).
Proof. by apply fieldsGo_noSpace. Qed.

Lemma isPrefix_arrow_noSpace (a : ascii) (s : string) :
  (byte a =? 32)%N = false -> isPrefix " -> " (String a s) = false.
Proof.
  intros Ha. cbn [isPrefix]. rewrite N.eqb_sym.
  change (byte " ") with 32%N. by rewrite Ha.
Qed.

Lemma splitGo_noSpace (p : string) : forall cur : string,
  noSpace p = true -> splitGo " -> " 0 cur p = [cur +:+ p].
Proof.
  induction p as [|a p IH]; intros cur Hp.
  - cbn [splitGo]. by rewrite append_nil_r.
  - simpl in Hp. apply andb_true_iff in Hp as [Ha Hp].
    apply negb_true_iff in Ha.
    cbn [splitGo]. rewrite (isPrefix_arrow_noSpace _ _ Ha).
    rewrite IH by done. by rewrite snoc_append.
Qed.

(** Splitting ["local -> peer"] gives back the two addresses when neither
    contains a space. *)
Lemma Split_SprintfArrow (l p : string) :
  noSpace l = true -> noSpace p = true ->
  Split (SprintfArrow l p) " -> " = [l; p].
Proof.
  unfold Split, SprintfArrow. intros Hl Hp.
  enough (forall cur, splitGo " -> " 0 cur (l +:+ " -> " +:+ p) = [cur +:+ l; p])
    as H by apply (H "").
  induction l as [|a l IH]; intros cur.
  - rewrite append_empty, append_nil_r, !append_cons, append_empty.
    cbn [splitGo isPrefix]. rewrite !N.eqb_refl. simpl.
    f_equal. by apply (splitGo_noSpace p "").
  - simpl in Hl. apply andb_true_iff in Hl as [Ha Hl].
    apply negb_true_iff in Ha.
    rewrite append_cons. cbn [splitGo].
    rewrite (isPrefix_arrow_noSpace _ _ Ha).
    rewrite (IH Hl). by rewrite snoc_append.
Qed.

Lemma isPrefix_spec (p s : string) :
  isPrefix p s = true <-> exists t, s = p +:+ t.
Proof.
  revert s. induction p as [|a p IH]; intros s; cbn [isPrefix].
  - split; [intros _; by exists s | done].
  - destruct s as [|b s]; [split; [done | intros [t Ht]; done] |].
    rewrite andb_true_iff, N.eqb_eq, IH. unfold byte. split.
    + intros [Hab [t ->]]. exists t.
      apply (f_equal ascii_of_N) in Hab. rewrite !ascii_N_embedding in Hab.
      by subst.
    + intros [t Ht]. rewrite append_cons in Ht. injection Ht as -> ->. eauto.
Qed.

Lemma matchInodeHere_spec (s : string) :
  matchInodeHere s <> [] <->
  exists (d : ascii) (post : string), s = "ino:" +:+ String d post /\ isDigit d = true.
Proof.
  unfold matchInodeHere. destruct (isPrefix "ino:" s) eqn:E.
  - apply isPrefix_spec in E as [t ->]. simpl dropBytes.
    destruct t as [|d t]; simpl takeDigits.
    + split; [done | intros (d & post & H & _); done].
    + destruct (isDigit d) eqn:Hd.
      * split; [intros _; by exists d, t | done].
      * split; [done |]. intros (d' & post & H & Hd').
        injection H as -> ->. congruence.
  - split; [done |]. intros (d & post & -> & _).
    rewrite !append_cons in E. cbn [isPrefix] in E.
    by rewrite !N.eqb_refl in E.
Qed.

Lemma matchInodeHere_length (s : string) :
  matchInodeHere s = [] \/ length (matchInodeHere s) = 2%nat.
Proof.
  unfold matchInodeHere. destruct (isPrefix "ino:" s); [|by left].
  destruct (takeDigits (dropBytes 4 s)); [by left | by right].
Qed.

Lemma FindStringSubmatch_length (s : string) :
  FindStringSubmatch s = [] \/ length (FindStringSubmatch s) = 2%nat.
Proof.
  induction s as [|a s IH]; cbn [FindStringSubmatch].
  - destruct (matchInodeHere_length "") as [-> | H]; [by left |].
    right. by destruct (matchInodeHere "").
  - destruct (matchInodeHere_length (String a s)) as [-> | H]; [done |].
    right. by destruct (matchInodeHere (String a s)).
Qed.

Lemma FindStringSubmatch_spec (s : string) :
  FindStringSubmatch s <> [] <-> hasInodePattern s.
Proof.
  induction s as [|a s IH].
  - simpl. split; [done |]. intros (pre & d & post & H & _).
    destruct pre; done.
  - cbn [FindStringSubmatch].
    destruct (matchInodeHere (String a s)) as [|x l] eqn:E.
    + rewrite IH. split.
      * intros (pre & d & post & -> & Hd). by exists (String a pre), d, post.
      * intros (pre & d & post & H & Hd). destruct pre as [|b pre].
        -- exfalso. assert (matchInodeHere (String a s) <> []) as Hne; [|done].
           apply matchInodeHere_spec. by exists d, post.
        -- rewrite append_cons in H. injection H as -> ->. by exists pre, d, post.
    + split; [|done]. intros _.
      assert (matchInodeHere (String a s) <> []) as Hne by (by rewrite E).
      apply matchInodeHere_spec in Hne as (d & post & H & Hd).
      by exists "", d, post.
Qed.

End StringFacts.

(** ** The monad and the loops *)

Section MonadFacts.

Context {A B : Type}.

Lemma bind_value (c : M A) (f : A -> M B) (m : gmap string ConnectionInfo) :
  valueOf (bind c f m) = valueOf (f (valueOf (c m)) (tableOf (c m))).
Proof.
  unfold bind, valueOf, tableOf.
  destruct (c m) as [[a m1] o1]. simpl. by destruct (f a m1) as [[b m2] o2].
Qed.

Lemma bind_table (c : M A) (f : A -> M B) (m : gmap string ConnectionInfo) :
  tableOf (bind c f m) = tableOf (f (valueOf (c m)) (tableOf (c m))).
Proof.
  unfold bind, valueOf, tableOf.
  destruct (c m) as [[a m1] o1]. simpl. by destruct (f a m1) as [[b m2] o2].
Qed.

Lemma bind_output (c : M A) (f : A -> M B) (m : gmap string ConnectionInfo) :
  outputOf (bind c f m) =
  outputOf (c m) ++ outputOf (f (valueOf (c m)) (tableOf (c m))).
Proof.
  unfold bind, valueOf, tableOf, outputOf.
  destruct (c m) as [[a m1] o1]. simpl. by destruct (f a m1) as [[b m2] o2].
Qed.

End MonadFacts.

Lemma elem_of_concat {A} (x : A) (ls : list (list A)) :
  x ∈ concat ls <-> exists l : list A, x ∈ l /\ l ∈ ls.
Proof.
  induction ls as [|l0 ls IH]; cbn [concat].
  - split; [by intros ?%elem_of_nil | by intros (l & _ & ?%elem_of_nil)].
  - rewrite elem_of_app, IH. split.
    + intros [H | (l & H1 & H2)]; [exists l0 | exists l]; split; auto; constructor; done.
    + intros (l & H1 & [-> | H2]%elem_of_cons); [by left | right; eauto].
Qed.

Lemma forEach_cons_table {A} (body : A -> M unit) (x : A) (l : list A)
    (m : gmap string ConnectionInfo) :
  tableOf (forEach body (x :: l) m) = tableOf (forEach body l (tableOf (body x m))).
Proof. cbn [forEach]. by rewrite bind_table. Qed.

Lemma forEach_cons_output {A} (body : A -> M unit) (x : A) (l : list A)
    (m : gmap string ConnectionInfo) :
  outputOf (forEach body (x :: l) m) =
  outputOf (body x m) ++ outputOf (forEach body l (tableOf (body x m))).
Proof. cbn [forEach]. by rewrite bind_output. Qed.

(** ** The snapshot parser *)

Lemma scanLine_eq (line : string) (acc : list ConnectionInfo)
    (m : gmap string ConnectionInfo) :
  scanLine line acc m = (acc ++ lineRecords line, m, lineOutput line).
Proof.
  unfold lineRecords, lineOutput, scanLine.
  destruct (length (FindStringSubmatch line) <? 2)%nat.
  - cbn. by rewrite app_nil_r.
  - destruct (5 <=? length (Fields line))%nat; cbn; [done | by rewrite app_nil_r].
Qed.

Lemma scanLines_eq (lines : list string) : forall (acc : list ConnectionInfo)
    (m : gmap string ConnectionInfo),
  scanLines lines acc m =
  (acc ++ concat (lineRecords <$> lines), m, concat (lineOutput <$> lines)).
Proof.
  induction lines as [|line rest IH]; intros acc m; cbn [scanLines].
  - cbn. by rewrite app_nil_r.
  - unfold bind. rewrite scanLine_eq, IH. cbn. by rewrite <- app_assoc.
Qed.

Lemma parsed_eq (lines : list string) :
  parsed lines = concat (lineRecords <$> lines).
Proof. unfold parsed. by rewrite scanLines_eq. Qed.

Lemma parsed_app (l1 l2 : list string) :
  parsed (l1 ++ l2) = parsed l1 ++ parsed l2.
Proof. by rewrite !parsed_eq, fmap_app, concat_app. Qed.

Lemma parsed_cons (line : string) (rest : list string) :
  parsed (line :: rest) = lineRecords line ++ parsed rest.
Proof. by rewrite !parsed_eq. Qed.

Lemma listCurrentConnections_eq (e : Env) (lines : list string)
    (m : gmap string ConnectionInfo) :
  ssLines e = Some lines ->
  listCurrentConnections e m =
  (Some (parsed lines), m, concat (lineOutput <$> lines)).
Proof.
  intros H. unfold listCurrentConnections. rewrite H.
  unfold bind. rewrite scanLines_eq, parsed_eq. cbn. by rewrite app_nil_r.
Qed.

Lemma lookup_total_elem_of (l : list string) (i : nat) :
  (i < length l)%nat -> l !!! i ∈ l.
Proof.
  intros H. apply list_elem_of_lookup. exists i.
  by apply list_lookup_lookup_total_lt.
Qed.

Lemma lineRecords_spec (line : string) (r : ConnectionInfo) :
  r ∈ lineRecords line ->
  IsActive r = true /\ wellFormedID (ConnectionID r) /\
  lineRecords line = [r] /\
  FindStringSubmatch line !! 1%nat = Some (Inode r) /\
  ConnectionID r = SprintfArrow (Fields line !!! 3%nat) (Fields line !!! 4%nat).
Proof.
  unfold lineRecords, scanLine.
  destruct (length (FindStringSubmatch line) <? 2)%nat eqn:E1; [cbn; by intros ?%elem_of_nil |].
  destruct (5 <=? length (Fields line))%nat eqn:E2; [|cbn; by intros ?%elem_of_nil].
  cbn. intros ->%list_elem_of_singleton. cbn.
  apply Nat.ltb_ge in E1. apply Nat.leb_le in E2.
  split_and!; [done | | done | | done].
  - exists (Fields line !!! 3%nat), (Fields line !!! 4%nat). split_and!; [done | |].
    + pose proof (Fields_noSpace line) as HF. rewrite Forall_forall in HF.
      apply HF, lookup_total_elem_of. lia.
    + pose proof (Fields_noSpace line) as HF. rewrite Forall_forall in HF.
      apply HF, lookup_total_elem_of. lia.
  - apply list_lookup_lookup_total_lt. lia.
Qed.

Lemma parsed_spec (lines : list string) (r : ConnectionInfo) :
  r ∈ parsed lines -> IsActive r = true /\ wellFormedID (ConnectionID r).
Proof.
  rewrite parsed_eq. intros (rs & Hr & Hrs)%elem_of_concat.
  apply list_elem_of_fmap in Hrs as (line & -> & _).
  apply lineRecords_spec in Hr. tauto.
Qed.

(** ** The merge *)

Lemma refresh_idemp (now : Z) (c : ConnectionInfo) :
  refresh now (refresh now c) = refresh now c.
Proof. reflexivity. Qed.

Lemma refresh_fresh (now : Z) (r : ConnectionInfo) :
  IsActive r = true -> refresh now (fresh now r) = fresh now r.
Proof. destruct r as [i ta ls act cid]. cbn. by intros ->. Qed.

Lemma markAllInactive_table (m : gmap string ConnectionInfo) :
  tableOf (markAllInactive m) = setIsActive false <$> m.
Proof. reflexivity. Qed.

Lemma markAllInactive_output (m : gmap string ConnectionInfo) :
  outputOf (markAllInactive m) = [].
Proof. reflexivity. Qed.

Lemma mergeConn_table (now : Z) (r : ConnectionInfo) (m : gmap string ConnectionInfo) :
  tableOf (mergeConn now r m) =
  match m !! Inode r with
  | Some c => <[Inode r := refresh now c]> m
  | None => <[Inode r := fresh now r]> m
  end.
Proof. unfold mergeConn, bind, getTable. by destruct (m !! Inode r). Qed.

Lemma mergeConn_other (now : Z) (r : ConnectionInfo) (m : gmap string ConnectionInfo)
    (k : string) :
  Inode r <> k -> tableOf (mergeConn now r m) !! k = m !! k.
Proof.
  intros Hne. rewrite mergeConn_table.
  destruct (m !! Inode r); by rewrite lookup_insert_ne.
Qed.

(** An entry tracked before the loop is refreshed if its inode is observed
    and untouched otherwise. *)
Lemma forEach_merge_tracked (now : Z) (L : list ConnectionInfo) :
  forall (m : gmap string ConnectionInfo) (k : string) (c : ConnectionInfo),
    m !! k = Some c ->
    tableOf (forEach (mergeConn now) L m) !! k =
    Some (if bool_decide (k ∈ Inode <$> L) then refresh now c else c).
Proof.
  induction L as [|r L IH]; intros m k c Hk.
  - cbn. by rewrite Hk.
  - rewrite forEach_cons_table. destruct (decide (Inode r = k)) as [<- | Hne].
    + rewrite (IH _ (Inode r) (refresh now c)).
      2:{ rewrite mergeConn_table, Hk. by rewrite lookup_insert_eq. }
      rewrite refresh_idemp. rewrite (bool_decide_eq_true_2 (Inode r ∈ Inode <$> r :: L)).
      2:{ rewrite fmap_cons. by left. }
      by case_bool_decide.
    + rewrite (IH _ k c) by (by rewrite mergeConn_other).
      rewrite fmap_cons. f_equal.
      assert (bool_decide (k ∈ Inode <$> L) = bool_decide (k ∈ Inode r :: (Inode <$> L))) as ->; [|done].
      apply bool_decide_ext. rewrite elem_of_cons.
      split; [by right | intros [H | H]; [congruence | done]].
Qed.

(** An inode that is not tracked before the loop and not observed stays
    untracked. *)
Lemma forEach_merge_absent (now : Z) (L : list ConnectionInfo) :
  forall (m : gmap string ConnectionInfo) (k : string),
    m !! k = None -> k ∉ Inode <$> L ->
    tableOf (forEach (mergeConn now) L m) !! k = None.
Proof.
  induction L as [|r L IH]; intros m k Hk Hnot; [done |].
  rewrite forEach_cons_table. rewrite fmap_cons, not_elem_of_cons in Hnot.
  destruct Hnot as [Hne Hnot]. apply IH; [|done].
  by rewrite mergeConn_other.
Qed.

(** An inode that is not tracked before the loop is tracked from the first
    record that carries it. *)
Lemma forEach_merge_new (now : Z) (pre : list ConnectionInfo) (r : ConnectionInfo)
    (post : list ConnectionInfo) :
  forall m : gmap string ConnectionInfo,
    m !! Inode r = None -> Inode r ∉ Inode <$> pre ->
    IsActive r = true ->
    tableOf (forEach (mergeConn now) (pre ++ r :: post) m) !! Inode r
    = Some (fresh now r).
Proof.
  induction pre as [|r0 pre IH]; intros m Hk Hnot Hact.
  - cbn [app]. rewrite forEach_cons_table.
    rewrite (forEach_merge_tracked now post _ (Inode r) (fresh now r)).
    2:{ rewrite mergeConn_table, Hk. by rewrite lookup_insert_eq. }
    rewrite refresh_fresh by done. by case_bool_decide.
  - rewrite fmap_cons, not_elem_of_cons in Hnot. destruct Hnot as [Hne Hnot].
    cbn [app]. rewrite forEach_cons_table. apply IH; [|done|done].
    by rewrite mergeConn_other.
Qed.

(** Every observed inode can be located at its first record. *)
Lemma first_record (L : list ConnectionInfo) (k : string) :
  k ∈ Inode <$> L ->
  exists pre r post, L = pre ++ r :: post /\ Inode r = k /\ k ∉ Inode <$> pre.
Proof.
  induction L as [|r0 L IH]; [by intros ?%elem_of_nil |].
  intros Hin. destruct (decide (Inode r0 = k)) as [Heq | Hne].
  - exists [], r0, L. split_and!; [done | done |]. by intros ?%elem_of_nil.
  - rewrite fmap_cons, elem_of_cons in Hin. destruct Hin as [-> | Hin]; [done |].
    destruct (IH Hin) as (pre & r & post & -> & Hr & Hpre).
    exists (r0 :: pre), r, post. split_and!; [done | done |].
    rewrite fmap_cons, not_elem_of_cons. split; [congruence | done].
Qed.

Lemma mergeAll_table (now : Z) (L : list ConnectionInfo) (m : gmap string ConnectionInfo) :
  tableOf (mergeAll now L m) = tableOf (forEach (mergeConn now) L (setIsActive false <$> m)).
Proof. unfold mergeAll. by rewrite bind_table, markAllInactive_table. Qed.

(** The table after the merge, entry by entry. *)
Lemma mergeAll_tracked_seen (now : Z) (L : list ConnectionInfo)
    (m : gmap string ConnectionInfo) (k : string) (c : ConnectionInfo) :
  m !! k = Some c -> k ∈ Inode <$> L ->
  tableOf (mergeAll now L m) !! k =
  Some (mkConn (Inode c) (TimeAdded c) now true (ConnectionID c)).
Proof.
  intros Hk Hin. rewrite mergeAll_table.
  rewrite (forEach_merge_tracked now L _ k (setIsActive false c)).
  2:{ by rewrite lookup_fmap, Hk. }
  by rewrite bool_decide_eq_true_2.
Qed.

Lemma mergeAll_tracked_unseen (now : Z) (L : list ConnectionInfo)
    (m : gmap string ConnectionInfo) (k : string) (c : ConnectionInfo) :
  m !! k = Some c -> k ∉ Inode <$> L ->
  tableOf (mergeAll now L m) !! k = Some (setIsActive false c).
Proof.
  intros Hk Hin. rewrite mergeAll_table.
  rewrite (forEach_merge_tracked now L _ k (setIsActive false c)).
  2:{ by rewrite lookup_fmap, Hk. }
  by rewrite bool_decide_eq_false_2.
Qed.

Lemma mergeAll_new (now : Z) (pre : list ConnectionInfo) (r : ConnectionInfo)
    (post : list ConnectionInfo) (m : gmap string ConnectionInfo) :
  m !! Inode r = None -> Inode r ∉ Inode <$> pre -> IsActive r = true ->
  tableOf (mergeAll now (pre ++ r :: post) m) !! Inode r = Some (fresh now r).
Proof.
  intros Hk Hpre Hact. rewrite mergeAll_table.
  apply forEach_merge_new; [|done|done]. by rewrite lookup_fmap, Hk.
Qed.

Lemma mergeAll_absent (now : Z) (L : list ConnectionInfo)
    (m : gmap string ConnectionInfo) (k : string) :
  m !! k = None -> k ∉ Inode <$> L ->
  tableOf (mergeAll now L m) !! k = None.
Proof.
  intros Hk Hin. rewrite mergeAll_table.
  apply forEach_merge_absent; [|done]. by rewrite lookup_fmap, Hk.
Qed.

(** Where an entry of the merged table comes from. *)
Lemma mergeAll_inv (now : Z) (L : list ConnectionInfo)
    (m : gmap string ConnectionInfo) (k : string) (c' : ConnectionInfo) :
  Forall (fun r => IsActive r = true) L ->
  tableOf (mergeAll now L m) !! k = Some c' ->
  (exists c, m !! k = Some c /\ k ∈ Inode <$> L /\
             c' = mkConn (Inode c) (TimeAdded c) now true (ConnectionID c))
  \/ (exists c, m !! k = Some c /\ (k ∉ Inode <$> L) /\ c' = setIsActive false c)
  \/ (exists pre r post, m !! k = None /\ L = pre ++ r :: post /\ Inode r = k /\
        (k ∉ Inode <$> pre) /\ c' = fresh now r).
Proof.
  intros Hact H. destruct (m !! k) as [c|] eqn:Hk;
    destruct (decide (k ∈ Inode <$> L)) as [Hin | Hin].
  - left. exists c. rewrite (mergeAll_tracked_seen _ _ _ _ _ Hk Hin) in H.
    naive_solver.
  - right; left. exists c. rewrite (mergeAll_tracked_unseen _ _ _ _ _ Hk Hin) in H.
    naive_solver.
  - right; right. destruct (first_record L k Hin) as (pre & r & post & -> & <- & Hpre).
    exists pre, r, post. rewrite mergeAll_new in H; [naive_solver | done | done |].
    rewrite Forall_forall in Hact. apply Hact.
    apply elem_of_app. right. by left.
  - by rewrite (mergeAll_absent _ _ _ _ Hk Hin) in H.
Qed.

(** ** The sweep *)

Lemma killCalls_app (inode : string) (o1 o2 : list Event) :
  killCalls inode (o1 ++ o2) = (killCalls inode o1 + killCalls inode o2)%nat.
Proof.
  induction o1 as [|ev o1 IH]; [done |].
  destruct ev; cbn [app killCalls]; rewrite IH; lia.
Qed.

Lemma killCalls_elem_of (inode : string) (out : list Event) :
  (0 < killCalls inode out)%nat <-> exists r, EvKillConnection inode r ∈ out.
Proof.
  induction out as [|ev out IH].
  - cbn. split; [lia | by intros [r ?%elem_of_nil]].
  - destruct ev as [| | | | |i r0| |]; cbn [killCalls];
      try (rewrite IH; split; intros [r H]; exists r;
           [by right | by apply elem_of_cons in H as [? | ?]]).
    case_bool_decide as Hi.
    + subst. split; [intros _; exists r0; by left | lia].
    + rewrite Nat.add_0_l, IH. split; intros [r H]; exists r; [by right |].
      apply elem_of_cons in H as [? | ?]; [congruence | done].
Qed.

Lemma killConnection_found (e : Env) (k : string) (m : gmap string ConnectionInfo)
    (c : ConnectionInfo) :
  m !! k = Some c ->
  killConnection e k m = (killResultOf e c, m, [EvKillConnection k (killResultOf e c)]).
Proof.
  intros Hk. unfold killConnection, killResultOf, bind, getTable. rewrite Hk.
  by destruct (length (Split (ConnectionID c) " -> ") =? 2)%nat.
Qed.

Lemma sweepConn_found (cfg : Config) (e : Env) (now : Z) (k : string)
    (m : gmap string ConnectionInfo) (c : ConnectionInfo) :
  m !! k = Some c ->
  sweepConn cfg e now k m =
  if killRule cfg now c
  then (tt, delete k m,
        [EvKilling k (ConnectionID c); EvKillConnection k (killResultOf e c)])
  else if expiryRule cfg now c
  then (tt, delete k m, [EvRemoving k (ConnectionID c)])
  else (tt, m, []).
Proof.
  intros Hk. unfold sweepConn, killRule, expiryRule.
  unfold bind at 1. unfold getTable at 1. rewrite Hk.
  destruct ((minutes (maxActiveDurMin cfg) <? Sub now (TimeAdded c)) && IsActive c).
  - unfold bind at 1. unfold emit at 1. unfold bind at 1.
    rewrite (killConnection_found e k m c Hk). reflexivity.
  - by destruct (minutes (maxInactiveDurMin cfg) <? Sub now (LastSeen c)).
Qed.

Lemma sweepConn_missing (cfg : Config) (e : Env) (now : Z) (k : string)
    (m : gmap string ConnectionInfo) :
  m !! k = None -> sweepConn cfg e now k m = (tt, m, []).
Proof. intros Hk. unfold sweepConn, bind, getTable. by rewrite Hk. Qed.

Lemma sweepConn_lookup (cfg : Config) (e : Env) (now : Z) (k : string)
    (m : gmap string ConnectionInfo) :
  tableOf (sweepConn cfg e now k m) !! k = m !! k ≫= keep cfg now.
Proof.
  destruct (m !! k) as [c|] eqn:Hk.
  - rewrite (sweepConn_found _ _ _ _ _ _ Hk).
    change (Some c ≫= keep cfg now) with (keep cfg now c). unfold keep.
    destruct (killRule cfg now c); [apply lookup_delete_eq |].
    destruct (expiryRule cfg now c); [apply lookup_delete_eq | exact Hk].
  - by rewrite (sweepConn_missing _ _ _ _ _ Hk).
Qed.

Lemma sweepConn_other (cfg : Config) (e : Env) (now : Z) (k k' : string)
    (m : gmap string ConnectionInfo) :
  k <> k' -> tableOf (sweepConn cfg e now k m) !! k' = m !! k'.
Proof.
  intros Hne. destruct (m !! k) as [c|] eqn:Hk.
  - rewrite (sweepConn_found _ _ _ _ _ _ Hk).
    destruct (killRule cfg now c); [by apply lookup_delete_ne |].
    destruct (expiryRule cfg now c); [by apply lookup_delete_ne | done].
  - by rewrite (sweepConn_missing _ _ _ _ _ Hk).
Qed.

Lemma sweepConn_output (cfg : Config) (e : Env) (now : Z) (k : string)
    (m : gmap string ConnectionInfo) :
  outputOf (sweepConn cfg e now k m) = sweepOutput cfg e now k (m !! k).
Proof.
  destruct (m !! k) as [c|] eqn:Hk.
  - rewrite (sweepConn_found _ _ _ _ _ _ Hk). cbn.
    destruct (killRule cfg now c); [done |]. by destruct (expiryRule cfg now c).
  - by rewrite (sweepConn_missing _ _ _ _ _ Hk).
Qed.

Section SweepLoop.

Variables (cfg : Config) (e : Env) (now : Z).

Lemma forEach_sweep_notin (ks : list string) :
  forall (m : gmap string ConnectionInfo) (k : string),
    k ∉ ks -> tableOf (forEach (sweepConn cfg e now) ks m) !! k = m !! k.
Proof.
  induction ks as [|k0 ks IH]; intros m k Hk; [done |].
  rewrite not_elem_of_cons in Hk. destruct Hk as [Hne Hk].
  rewrite forEach_cons_table, IH by done. by apply sweepConn_other.
Qed.

Lemma forEach_sweep_in (ks : list string) :
  forall (m : gmap string ConnectionInfo) (k : string),
    NoDup ks -> k ∈ ks ->
    tableOf (forEach (sweepConn cfg e now) ks m) !! k = m !! k ≫= keep cfg now.
Proof.
  induction ks as [|k0 ks IH]; intros m k Hnd Hk; [by apply elem_of_nil in Hk |].
  apply NoDup_cons in Hnd as [Hk0 Hnd]. rewrite forEach_cons_table.
  destruct (decide (k = k0)) as [-> | Hne].
  - rewrite forEach_sweep_notin by done. apply sweepConn_lookup.
  - apply elem_of_cons in Hk as [? | Hk]; [done |].
    rewrite IH by done. by rewrite sweepConn_other.
Qed.

Lemma forEach_sweep_output (ks : list string) :
  forall m : gmap string ConnectionInfo,
    NoDup ks ->
    outputOf (forEach (sweepConn cfg e now) ks m) =
    concat ((fun k => sweepOutput cfg e now k (m !! k)) <$> ks).
Proof.
  induction ks as [|k0 ks IH]; intros m Hnd; [done |].
  apply NoDup_cons in Hnd as [Hk0 Hnd].
  rewrite forEach_cons_output, IH by done. rewrite sweepConn_output.
  rewrite fmap_cons. cbn [concat]. f_equal. f_equal.
  apply list_fmap_ext. intros i k Hi.
  rewrite sweepConn_other; [done |]. intros ->.
  apply Hk0. by apply list_elem_of_lookup_2 in Hi.
Qed.

Lemma killCalls_sweepOutput (k k' : string) (o : option ConnectionInfo) :
  killCalls k (sweepOutput cfg e now k' o) =
  match o with
  | Some c => if killRule cfg now c && bool_decide (k' = k) then 1%nat else 0%nat
  | None => 0%nat
  end.
Proof.
  destruct o as [c|]; [|done]. cbn.
  destruct (killRule cfg now c); cbn.
  - case_bool_decide; done.
  - by destruct (expiryRule cfg now c).
Qed.

Lemma killCalls_sweep_notin (ks : list string) (m : gmap string ConnectionInfo)
    (k : string) :
  k ∉ ks ->
  killCalls k (concat ((fun k' => sweepOutput cfg e now k' (m !! k')) <$> ks)) = 0%nat.
Proof.
  induction ks as [|k0 ks IH]; intros Hk; [done |].
  rewrite not_elem_of_cons in Hk. destruct Hk as [Hne Hk].
  rewrite fmap_cons. cbn [concat]. rewrite killCalls_app, IH by done.
  rewrite killCalls_sweepOutput. destruct (m !! k0); [|done].
  rewrite bool_decide_eq_false_2 by congruence. by rewrite andb_false_r.
Qed.

Lemma killCalls_sweep_in (ks : list string) (m : gmap string ConnectionInfo)
    (k : string) (c : ConnectionInfo) :
  NoDup ks -> k ∈ ks -> m !! k = Some c ->
  killCalls k (concat ((fun k' => sweepOutput cfg e now k' (m !! k')) <$> ks))
  = if killRule cfg now c then 1%nat else 0%nat.
Proof.
  induction ks as [|k0 ks IH]; intros Hnd Hk Hc; [by apply elem_of_nil in Hk |].
  apply NoDup_cons in Hnd as [Hk0 Hnd].
  rewrite fmap_cons. cbn [concat]. rewrite killCalls_app, killCalls_sweepOutput.
  destruct (decide (k = k0)) as [-> | Hne].
  - rewrite killCalls_sweep_notin by done. rewrite Hc.
    rewrite bool_decide_eq_true_2 by done. rewrite andb_true_r.
    destruct (killRule cfg now c); lia.
  - apply elem_of_cons in Hk as [? | Hk]; [done |].
    rewrite IH by done.
    destruct (m !! k0); [|done].
    rewrite bool_decide_eq_false_2 by congruence. by rewrite andb_false_r.
Qed.

Lemma elem_of_sweep_output (ks : list string) (m : gmap string ConnectionInfo)
    (k : string) (r : KillResult) :
  EvKillConnection k r ∈
    concat ((fun k' => sweepOutput cfg e now k' (m !! k')) <$> ks) ->
  exists c, m !! k = Some c /\ killRule cfg now c = true /\ r = killResultOf e c.
Proof.
  intros (out & Hin & Hout)%elem_of_concat.
  apply list_elem_of_fmap in Hout as (k' & -> & _).
  destruct (m !! k') as [c|] eqn:Hc; [|by apply elem_of_nil in Hin].
  cbn in Hin. destruct (killRule cfg now c) eqn:Hkill.
  - apply elem_of_cons in Hin as [? | Hin]; [done |].
    apply list_elem_of_singleton in Hin. injection Hin as -> ->. eauto.
  - destruct (expiryRule cfg now c).
    + by apply list_elem_of_singleton in Hin.
    + by apply elem_of_nil in Hin.
Qed.

Hypothesis order_ok : rangeOk e.

Lemma rangeOrder_NoDup (m : gmap string ConnectionInfo) : NoDup (rangeOrder e m).
Proof. rewrite (order_ok m). apply NoDup_fst_map_to_list. Qed.

Lemma rangeOrder_elem_of (m : gmap string ConnectionInfo) (k : string) :
  k ∈ rangeOrder e m <-> is_Some (m !! k).
Proof.
  rewrite (order_ok m), list_elem_of_fmap. split.
  - intros ([k' c] & -> & H). apply elem_of_map_to_list in H. by exists c.
  - intros [c H]. exists (k, c). split; [done |]. by apply elem_of_map_to_list.
Qed.

(** The sweep keeps exactly the entries that neither rule selects. *)
Lemma sweepAll_lookup (m : gmap string ConnectionInfo) (k : string) :
  tableOf (sweepAll cfg e now m) !! k = m !! k ≫= keep cfg now.
Proof.
  unfold sweepAll. rewrite bind_table. cbn [getTable valueOf tableOf fst snd].
  destruct (m !! k) as [c|] eqn:Hk.
  - rewrite forEach_sweep_in, Hk; [done | apply rangeOrder_NoDup |].
    apply rangeOrder_elem_of. by exists c.
  - rewrite forEach_sweep_notin, Hk; [done |].
    rewrite rangeOrder_elem_of, Hk. by intros [? ?].
Qed.

Lemma sweepAll_output (m : gmap string ConnectionInfo) :
  outputOf (sweepAll cfg e now m) =
  concat ((fun k => sweepOutput cfg e now k (m !! k)) <$> rangeOrder e m).
Proof.
  unfold sweepAll. rewrite bind_output. cbn [getTable valueOf tableOf outputOf fst snd app].
  apply forEach_sweep_output, rangeOrder_NoDup.
Qed.

(** [killConnection] is called once for an entry that the kill rule
    selects and never for another key. *)
Lemma sweepAll_killCalls (m : gmap string ConnectionInfo) (k : string) :
  killCalls k (outputOf (sweepAll cfg e now m)) =
  match m !! k with
  | Some c => if killRule cfg now c then 1%nat else 0%nat
  | None => 0%nat
  end.
Proof.
  rewrite sweepAll_output. destruct (m !! k) as [c|] eqn:Hk.
  - apply killCalls_sweep_in; [apply rangeOrder_NoDup | | done].
    apply rangeOrder_elem_of. by exists c.
  - apply killCalls_sweep_notin. rewrite rangeOrder_elem_of, Hk. by intros [? ?].
Qed.

End SweepLoop.

(** ** One cycle *)

Lemma parsed_active (lines : list string) :
  Forall (fun r => IsActive r = true) (parsed lines).
Proof. apply Forall_forall. intros r Hr. by apply parsed_spec in Hr as [? _]. Qed.

Lemma monitor_failed (cfg : Config) (e : Env) (m : gmap string ConnectionInfo) :
  ssLines e = None ->
  monitorConnections cfg e m = (tt, m, [EvCycle; EvListError]).
Proof.
  intros H. unfold monitorConnections, listCurrentConnections. by rewrite H.
Qed.

Lemma monitor_eq (cfg : Config) (e : Env) (lines : list string)
    (m : gmap string ConnectionInfo) :
  ssLines e = Some lines ->
  monitorConnections cfg e m =
  (tt, tableOf (sweepAll cfg e (now e) (merged e lines m)),
   [EvCycle] ++ concat (lineOutput <$> lines)
   ++ outputOf (mergeAll (now e) (parsed lines) m)
   ++ outputOf (sweepAll cfg e (now e) (merged e lines m))
   ++ [EvTotal (size (tableOf (sweepAll cfg e (now e) (merged e lines m))))]).
Proof.
  intros H. unfold monitorConnections, merged.
  unfold bind at 1. unfold emit at 1.
  unfold bind at 1. rewrite (listCurrentConnections_eq e lines m H).
  unfold bind at 1.
  destruct (mergeAll (now e) (parsed lines) m) as [[u1 m1] o1].
  cbn [tableOf outputOf fst snd]. unfold bind at 1.
  destruct (sweepAll cfg e (now e) m1) as [[u2 m2] o2].
  cbn. by destruct u2.
Qed.

Lemma monitor_table (cfg : Config) (e : Env) (lines : list string)
    (m : gmap string ConnectionInfo) :
  ssLines e = Some lines ->
  tableOf (monitorConnections cfg e m) =
  tableOf (sweepAll cfg e (now e) (merged e lines m)).
Proof. intros H. by rewrite (monitor_eq cfg e lines m H). Qed.

Lemma monitor_output (cfg : Config) (e : Env) (lines : list string)
    (m : gmap string ConnectionInfo) :
  ssLines e = Some lines ->
  outputOf (monitorConnections cfg e m) =
  [EvCycle] ++ concat (lineOutput <$> lines)
  ++ outputOf (mergeAll (now e) (parsed lines) m)
  ++ outputOf (sweepAll cfg e (now e) (merged e lines m))
  ++ [EvTotal (size (tableOf (monitorConnections cfg e m)))].
Proof. intros H. by rewrite (monitor_eq cfg e lines m H). Qed.

Lemma killCalls_lineOutput (k : string) (lines : list string) :
  killCalls k (concat (lineOutput <$> lines)) = 0%nat.
Proof.
  induction lines as [|line rest IH]; [done |].
  rewrite fmap_cons. cbn [concat]. rewrite killCalls_app, IH.
  unfold lineOutput, scanLine.
  destruct (length (FindStringSubmatch line) <? 2)%nat; [done |].
  by destruct (5 <=? length (Fields line))%nat.
Qed.

Lemma killCalls_forEach_merge (k : string) (now : Z) (L : list ConnectionInfo) :
  forall m : gmap string ConnectionInfo,
    killCalls k (outputOf (forEach (mergeConn now) L m)) = 0%nat.
Proof.
  induction L as [|r L IH]; intros m; [done |].
  rewrite forEach_cons_output, killCalls_app, IH.
  unfold mergeConn, bind, getTable. by destruct (m !! Inode r).
Qed.

Lemma killCalls_mergeAll (k : string) (now : Z) (L : list ConnectionInfo)
    (m : gmap string ConnectionInfo) :
  killCalls k (outputOf (mergeAll now L m)) = 0%nat.
Proof.
  unfold mergeAll. rewrite bind_output, killCalls_app, killCalls_forEach_merge.
  reflexivity.
Qed.

Section Cycle.

Variables (cfg : Config) (e : Env) (lines : list string).
Hypothesis order_ok : rangeOk e.
Hypothesis listed : ssLines e = Some lines.

(** The table after a cycle: the merged table without the entries that a
    rule selects. *)
Lemma monitor_lookup (m : gmap string ConnectionInfo) (k : string) :
  tableOf (monitorConnections cfg e m) !! k =
  merged e lines m !! k ≫= keep cfg (now e).
Proof. rewrite (monitor_table cfg e lines m listed). by apply sweepAll_lookup. Qed.

Lemma monitor_killCalls (m : gmap string ConnectionInfo) (k : string) :
  killCalls k (outputOf (monitorConnections cfg e m)) =
  match merged e lines m !! k with
  | Some c => if killRule cfg (now e) c then 1%nat else 0%nat
  | None => 0%nat
  end.
Proof.
  rewrite (monitor_output cfg e lines m listed).
  rewrite !killCalls_app, killCalls_lineOutput, killCalls_mergeAll.
  rewrite (sweepAll_killCalls cfg e (now e) order_ok). cbn [killCalls]. lia.
Qed.

Lemma elem_of_no_kill (k : string) (r : KillResult) (out : list Event) :
  killCalls k out = 0%nat -> EvKillConnection k r ∉ out.
Proof.
  intros H Hin. assert (0 < killCalls k out)%nat; [|lia].
  apply killCalls_elem_of. eauto.
Qed.

(** Every call of [killConnection] in a cycle is for an entry of the
    merged table that the kill rule selects. *)
Lemma monitor_kill_event (m : gmap string ConnectionInfo) (k : string)
    (r : KillResult) :
  EvKillConnection k r ∈ outputOf (monitorConnections cfg e m) ->
  exists c, merged e lines m !! k = Some c /\ killRule cfg (now e) c = true
            /\ r = killResultOf e c.
Proof.
  rewrite (monitor_output cfg e lines m listed).
  rewrite !elem_of_app. intros [H | [H | [H | [H | H]]]].
  - by apply list_elem_of_singleton in H.
  - exfalso. revert H. apply elem_of_no_kill, killCalls_lineOutput.
  - exfalso. revert H. apply elem_of_no_kill, killCalls_mergeAll.
  - rewrite (sweepAll_output cfg e (now e) order_ok) in H.
    by apply elem_of_sweep_output in H.
  - by apply list_elem_of_singleton in H.
Qed.

(** An entry tracked before the cycle and observed in it. *)
Lemma monitor_seen (m : gmap string ConnectionInfo) (k : string)
    (c : ConnectionInfo) :
  m !! k = Some c -> k ∈ observed lines ->
  tableOf (monitorConnections cfg e m) !! k =
  keep cfg (now e) (mkConn (Inode c) (TimeAdded c) (now e) true (ConnectionID c)).
Proof.
  intros Hk Hin. rewrite monitor_lookup. unfold merged.
  by rewrite (mergeAll_tracked_seen _ _ _ _ _ Hk Hin).
Qed.

(** An entry tracked before the cycle and not observed in it. *)
Lemma monitor_unseen (m : gmap string ConnectionInfo) (k : string)
    (c : ConnectionInfo) :
  m !! k = Some c -> k ∉ observed lines ->
  tableOf (monitorConnections cfg e m) !! k =
  keep cfg (now e) (setIsActive false c).
Proof.
  intros Hk Hin. rewrite monitor_lookup. unfold merged.
  by rewrite (mergeAll_tracked_unseen _ _ _ _ _ Hk Hin).
Qed.

(** An inode observed for the first time. *)
Lemma monitor_new (m : gmap string ConnectionInfo) (k : string) :
  m !! k = None -> k ∈ observed lines ->
  exists r, r ∈ parsed lines /\ Inode r = k /\
    merged e lines m !! k = Some (fresh (now e) r) /\
    tableOf (monitorConnections cfg e m) !! k = keep cfg (now e) (fresh (now e) r).
Proof.
  intros Hk Hin.
  destruct (first_record _ _ Hin) as (pre & r & post & Hl & <- & Hpre).
  assert (r ∈ parsed lines) as Hr by (rewrite Hl; apply elem_of_app; right; by left).
  assert (merged e lines m !! Inode r = Some (fresh (now e) r)) as Hm.
  { unfold merged. rewrite Hl. apply mergeAll_new; [done | done |].
    by apply parsed_spec in Hr as [? _]. }
  exists r. split_and!; [done | done | done |].
  by rewrite monitor_lookup, Hm.
Qed.

End Cycle.

(** ** Reachable tables *)

Lemma merged_ok (e : Env) (lines : list string) (t : Z)
    (m : gmap string ConnectionInfo) :
  tableOk t m -> t <= now e -> tableOk (now e) (merged e lines m).
Proof.
  intros Hm Ht k c' Hc'. unfold merged in Hc'.
  apply mergeAll_inv in Hc'; [|apply parsed_active].
  destruct Hc' as [(c & Hc & Hin & ->) | [(c & Hc & Hin & ->) | (pre & r & post & Hc & HL & Hr & Hpre & ->)]].
  - destruct (Hm k c Hc) as (H1 & H2 & H3 & H4). unfold entryOk. cbn.
    split_and!; [done | lia | lia | done].
  - destruct (Hm k c Hc) as (H1 & H2 & H3 & H4). unfold entryOk. cbn.
    split_and!; [done | lia | lia | done].
  - unfold entryOk. cbn. split_and!; [done | lia | lia |].
    assert (r ∈ parsed lines) as Hin by (rewrite HL; apply elem_of_app; right; by left).
    by apply parsed_spec in Hin as [_ ?].
Qed.

Lemma keep_Some (cfg : Config) (now : Z) (o : option ConnectionInfo)
    (c : ConnectionInfo) :
  o ≫= keep cfg now = Some c ->
  o = Some c /\ killRule cfg now c = false /\ expiryRule cfg now c = false.
Proof.
  destruct o as [c0|]; [|done]. cbn. unfold keep.
  destruct (killRule cfg now c0) eqn:E1; [done |].
  destruct (expiryRule cfg now c0) eqn:E2; [done |].
  cbn. intros [= ->]. done.
Qed.

Lemma monitor_ok (cfg : Config) (e : Env) (t : Z) (m : gmap string ConnectionInfo) :
  rangeOk e -> tableOk t m -> t <= now e ->
  tableOk (now e) (tableOf (monitorConnections cfg e m)).
Proof.
  intros Hord Hm Ht. destruct (ssLines e) as [lines|] eqn:Hl.
  - intros k c Hc. rewrite (monitor_lookup cfg e lines Hord Hl) in Hc.
    apply keep_Some in Hc as [Hc _]. by apply (merged_ok e lines t m Hm Ht).
  - rewrite (monitor_failed cfg e m Hl). intros k c Hc.
    destruct (Hm k c Hc) as (H1 & H2 & H3 & H4).
    unfold entryOk. split_and!; [done | done | lia | done].
Qed.

Lemma reachable_ok (cfg : Config) (t : Z) (m : gmap string ConnectionInfo) :
  reachable cfg t m -> tableOk t m.
Proof.
  induction 1 as [t | t m e Hr IH Hord Ht].
  - intros k c Hc. by rewrite lookup_empty in Hc.
  - by apply (monitor_ok cfg e t m).
Qed.

(** The loop of [main] only produces reachable tables. *)
Lemma runCycles_reachable (cfg : Config) (envs : list Env) :
  forall (t : Z) (m : gmap string ConnectionInfo),
    reachable cfg t m -> Forall rangeOk envs -> nondecreasing t envs ->
    exists t', reachable cfg t' (tableOf (runCycles cfg envs m)).
Proof.
  induction envs as [|e rest IH]; intros t m Hr Hord Hmono.
  - by exists t.
  - cbn [runCycles]. rewrite bind_table.
    apply Forall_cons in Hord as [He Hrest]. destruct Hmono as [Ht Hmono].
    apply (IH (now e)); [|done|done]. by apply (reachable_cycle cfg t m e).
Qed.

Example run_to_150_output :
  outputOf (runCycles defaultConfig
              [envAt 0 [lineAbc; lineXyz]; envAt 30 [lineAbc]; envAt 60 [lineAbc];
               envAt 90 [lineAbc]; envAt 120 [lineAbc]; envAt 150 [lineAbc]] ∅)
  = [EvCycle; EvNewTracked "101" idAbc;
     EvNewTracked "202" "10.0.0.5:50090 -> 10.0.0.7:50000"; EvTotal 2;
     EvCycle; EvTotal 2;
     EvCycle; EvTotal 2;
     EvCycle; EvRemoving "202" "10.0.0.5:50090 -> 10.0.0.7:50000"; EvTotal 1;
     EvCycle; EvTotal 1;
     EvCycle; EvKilling "101" idAbc;
     EvKillConnection "101" (KillRan "10.0.0.9:41234" "10.0.0.5:50090" true);
     EvTotal 0].
Proof. vm_compute. reflexivity. Qed.

(** On a well-formed connection ID, [killConnection] reaches the command. *)
Lemma killResultOf_wellFormed (e : Env) (c : ConnectionInfo) :
  wellFormedID (ConnectionID c) ->
  exists localAddr peerAddr : string,
    Split (ConnectionID c) " -> " = [localAddr; peerAddr]
    /\ killResultOf e c = KillRan peerAddr localAddr (ssKill e peerAddr localAddr).
Proof.
  intros (l & p & Hid & Hnl & Hnp). exists l, p. split.
  - rewrite Hid. by apply Split_SprintfArrow.
  - unfold killResultOf. rewrite Hid, (Split_SprintfArrow l p Hnl Hnp). reflexivity.
Qed.

(** * The claims of the specification *)

(** Facts about the sample inputs, used where a property is instantiated. *)
Lemma mapOrder_ok (o : option string) (t : Z) (kill : string -> string -> bool) :
  rangeOk (mkEnv o t mapOrder kill).
Proof. intros m. reflexivity. Defined.

Lemma reachable_tableAbc : reachable defaultConfig 0 tableAbc.
Proof.
  change 0 with (now (envAt 0 [lineAbc])).
  replace tableAbc with (tableOf (monitorConnections defaultConfig (envAt 0 [lineAbc]) ∅))
    by (vm_compute; reflexivity).
  apply (reachable_cycle defaultConfig 0 ∅).
  - apply reachable_start.
  - apply mapOrder_ok.
  - vm_compute. discriminate.
Defined.

Lemma ssLines_envAt (t : Z) (lines : list string) :
  Scan (unlines lines) = lines -> ssLines (envAt t lines) = Some lines.
Proof. intros H. unfold ssLines, envAt. cbn [ssOutput]. by rewrite H. Defined.

Lemma cycleAt_envAt (t : Z) (lines : list string) :
  Scan (unlines lines) = lines -> cycleAt (envAt t lines) t lines.
Proof.
  intros H. split_and!; [apply mapOrder_ok | reflexivity | by apply ssLines_envAt].
Defined.

(** C2. In a cycle whose snapshot was listed, an entry of the merged table
    that the kill rule selects (now - first-seen > max-active and active)
    gets exactly one call of [killConnection], and it is no longer tracked
    when the cycle ends, whatever the [ss --kill] command returns.  In a run
    of the program that call does run the command, on the entry's two
    addresses. *)
Theorem kill_rule_one_call_then_evicted (cfg : Config) (e : Env) (lines : list string)
    (m : gmap string ConnectionInfo) (k : string) (c : ConnectionInfo) :
  rangeOk e -> ssLines e = Some lines ->
  merged e lines m !! k = Some c ->
  killRule cfg (now e) c = true ->
  killCalls k (outputOf (monitorConnections cfg e m)) = 1%nat
  /\ EvKillConnection k (killResultOf e c) ∈ outputOf (monitorConnections cfg e m)
  /\ tableOf (monitorConnections cfg e m) !! k = None
  /\ (forall t, reachable cfg t m -> t <= now e ->
        exists localAddr peerAddr,
          ConnectionID c = SprintfArrow localAddr peerAddr
          /\ killResultOf e c = KillRan peerAddr localAddr (ssKill e peerAddr localAddr)).
Proof.
  intros Hord Hl Hc Hkill.
  assert (killCalls k (outputOf (monitorConnections cfg e m)) = 1%nat) as Hone.
  { rewrite (monitor_killCalls cfg e lines Hord Hl), Hc. by rewrite Hkill. }
  split_and!; [done | | |].
  - assert (0 < killCalls k (outputOf (monitorConnections cfg e m)))%nat as Hpos by lia.
    apply killCalls_elem_of in Hpos as [r Hr].
    destruct (monitor_kill_event cfg e lines Hord Hl m k r Hr) as (c' & Hc' & _ & ->).
    congruence.
  - rewrite (monitor_lookup cfg e lines Hord Hl), Hc. cbn. unfold keep.
    by rewrite Hkill.
  - intros t Hr Ht.
    pose proof (merged_ok e lines t m (reachable_ok cfg t m Hr) Ht k c Hc)
      as (_ & _ & _ & (l & p & Hid & Hnl & Hnp)).
    exists l, p. split; [done |].
    unfold killResultOf. rewrite Hid, (Split_SprintfArrow l p Hnl Hnp). reflexivity.
Qed.

Lemma kill_rule_one_call_then_evicted_witness :
  killCalls "101"
    (outputOf (monitorConnections defaultConfig (failingKillEnv 150 [lineAbc]) tableAbc)) = 1%nat
  /\ EvKillConnection "101" (KillRan "10.0.0.9:41234" "10.0.0.5:50090" false)
       ∈ outputOf (monitorConnections defaultConfig (failingKillEnv 150 [lineAbc]) tableAbc)
  /\ tableOf (monitorConnections defaultConfig (failingKillEnv 150 [lineAbc]) tableAbc)
       !! "101" = None
  /\ (forall t, reachable defaultConfig t tableAbc -> t <= now (failingKillEnv 150 [lineAbc]) ->
        exists localAddr peerAddr,
          idAbc = SprintfArrow localAddr peerAddr
          /\ KillRan "10.0.0.9:41234" "10.0.0.5:50090" false
             = KillRan peerAddr localAddr
                 (ssKill (failingKillEnv 150 [lineAbc]) peerAddr localAddr)).
Proof.
  apply (kill_rule_one_call_then_evicted defaultConfig (failingKillEnv 150 [lineAbc])
           [lineAbc] tableAbc "101" (mkConn "101" 0 (150 * Minute) true idAbc)).
  - apply mapOrder_ok.
  - reflexivity.
  - vm_compute. reflexivity.
  - vm_compute. reflexivity.
Defined.

(** C3. In a run of the program, every entry of the table after a cycle's
    merge has first-seen <= last-seen: an entry created by the merge has
    both equal to the cycle's now, and an entry that was already tracked
    keeps its first-seen while its last-seen either stays or moves forward
    to now. *)
Theorem first_seen_le_last_seen (cfg : Config) (t : Z) (m : gmap string ConnectionInfo)
    (e : Env) (lines : list string) (k : string) (c : ConnectionInfo) :
  reachable cfg t m -> t <= now e ->
  merged e lines m !! k = Some c ->
  TimeAdded c <= LastSeen c
  /\ (m !! k = None -> TimeAdded c = now e /\ LastSeen c = now e)
  /\ (forall c0, m !! k = Some c0 ->
        TimeAdded c = TimeAdded c0 /\ LastSeen c0 <= LastSeen c
        /\ (k ∈ observed lines -> LastSeen c = now e)
        /\ (k ∉ observed lines -> LastSeen c = LastSeen c0)).
Proof.
  intros Hr Ht Hc. pose proof (reachable_ok cfg t m Hr) as Hm.
  split.
  - by destruct (merged_ok e lines t m Hm Ht k c Hc) as (_ & ? & _).
  - unfold merged in Hc. apply mergeAll_inv in Hc; [|apply parsed_active].
    destruct Hc as [(c1 & Hc1 & Hin & ->) | [(c1 & Hc1 & Hin & ->) | (pre & r & post & Hc1 & HL & Hk & Hpre & ->)]].
    + split; [congruence |]. intros c0 Hc0. rewrite Hc1 in Hc0. injection Hc0 as ->.
      destruct (Hm k c0 Hc1) as (_ & _ & Hls & _). cbn.
      split_and!; [done | lia | done | done].
    + split; [congruence |]. intros c0 Hc0. rewrite Hc1 in Hc0. injection Hc0 as ->.
      cbn. split_and!; [done | lia | done | done].
    + split; [done | congruence].
Qed.

Lemma first_seen_le_last_seen_witness :
  let c := mkConn "101" 0 (30 * Minute) true idAbc in
  TimeAdded c <= LastSeen c
  /\ (tableAbc !! "101" = None -> TimeAdded c = 30 * Minute /\ LastSeen c = 30 * Minute)
  /\ (forall c0, tableAbc !! "101" = Some c0 ->
        TimeAdded c = TimeAdded c0 /\ LastSeen c0 <= LastSeen c
        /\ ("101" ∈ observed [lineAbc] -> LastSeen c = 30 * Minute)
        /\ ("101" ∉ observed [lineAbc] -> LastSeen c = LastSeen c0)).
Proof.
  apply (first_seen_le_last_seen defaultConfig 0 tableAbc (envAt 30 [lineAbc]) [lineAbc] "101").
  - exact reachable_tableAbc.
  - vm_compute. discriminate.
  - vm_compute. reflexivity.
Defined.

(** C4. After a cycle whose snapshot was listed, the active flag of a
    tracked entry is true exactly when its inode was observed in that
    snapshot.  The first loop marks every entry inactive and keeps it
    otherwise as it was; after the merge every observed inode is tracked and
    active, and every entry whose inode is not observed is still there,
    inactive, and no inode appears that was neither tracked nor observed;
    the sweep changes no flag and keeps every entry that no rule selects. *)
Theorem active_iff_observed (cfg : Config) (e : Env) (lines : list string)
    (m : gmap string ConnectionInfo) :
  rangeOk e -> ssLines e = Some lines ->
  (forall k, tableOf (markAllInactive m) !! k = setIsActive false <$> m !! k)
  /\ (forall k, k ∈ observed lines ->
        exists c, merged e lines m !! k = Some c /\ IsActive c = true)
  /\ (forall k, k ∉ observed lines ->
        merged e lines m !! k = setIsActive false <$> m !! k)
  /\ (forall k c, merged e lines m !! k = Some c ->
        (IsActive c = true <-> k ∈ observed lines))
  /\ (forall k c, tableOf (monitorConnections cfg e m) !! k = Some c ->
        merged e lines m !! k = Some c
        /\ (IsActive c = true <-> k ∈ observed lines))
  /\ (forall k c, merged e lines m !! k = Some c ->
        killRule cfg (now e) c = false -> expiryRule cfg (now e) c = false ->
        tableOf (monitorConnections cfg e m) !! k = Some c).
Proof.
  intros Hord Hl.
  assert (forall k c, merged e lines m !! k = Some c ->
            (IsActive c = true <-> k ∈ observed lines)) as Hmerged.
  { intros k c Hc. unfold merged in Hc.
    apply mergeAll_inv in Hc; [|apply parsed_active]. unfold observed.
    destruct Hc as [(c1 & Hc1 & Hin & ->) | [(c1 & Hc1 & Hin & ->) | (pre & r & post & Hc1 & HL & Hk & Hpre & ->)]].
    - done.
    - cbn. split; [done | intros; done].
    - assert (r ∈ parsed lines) as Hr by (rewrite HL; apply elem_of_app; right; by left).
      cbn. split.
      + intros _. subst k. by apply list_elem_of_fmap_2.
      + intros _. by apply parsed_spec in Hr as [? _]. }
  split_and!.
  - intros k. by rewrite markAllInactive_table, lookup_fmap.
  - intros k Hin. unfold merged. destruct (m !! k) as [c0|] eqn:Hk.
    + eexists. split; [by apply mergeAll_tracked_seen | done].
    + destruct (first_record _ _ Hin) as (pre & r & post & HL & <- & Hpre).
      assert (r ∈ parsed lines) as Hr by (rewrite HL; apply elem_of_app; right; by left).
      apply parsed_spec in Hr as [Hact _].
      exists (fresh (now e) r). split.
      * rewrite HL. by apply mergeAll_new.
      * by destruct r.
  - intros k Hin. unfold merged. destruct (m !! k) as [c0|] eqn:Hk.
    + by rewrite (mergeAll_tracked_unseen _ _ _ _ _ Hk Hin).
    + by rewrite (mergeAll_absent _ _ _ _ Hk Hin).
  - done.
  - intros k c Hc. rewrite (monitor_lookup cfg e lines Hord Hl) in Hc.
    apply keep_Some in Hc as [Hc _]. split; [done | by apply Hmerged].
  - intros k c Hc Hkill Hexp. rewrite (monitor_lookup cfg e lines Hord Hl), Hc.
    cbn. unfold keep. by rewrite Hkill, Hexp.
Qed.

Lemma active_iff_observed_witness :
  (exists c, merged (envAt 30 [lineXyz]) [lineXyz] tableAbc !! "202" = Some c
             /\ IsActive c = true)
  /\ merged (envAt 30 [lineXyz]) [lineXyz] tableAbc !! "101"
     = setIsActive false <$> tableAbc !! "101"
  /\ (IsActive (mkConn "101" 0 0 false idAbc) = true <-> "101" ∈ observed [lineXyz])
  /\ (IsActive (mkConn "202" (30 * Minute) (30 * Minute) true idXyz) = true
      <-> "202" ∈ observed [lineXyz])
  /\ tableOf (monitorConnections defaultConfig (envAt 30 [lineXyz]) tableAbc) !! "101"
     = Some (mkConn "101" 0 0 false idAbc)
  /\ tableOf (monitorConnections defaultConfig (envAt 30 [lineXyz]) tableAbc) !! "202"
     = Some (mkConn "202" (30 * Minute) (30 * Minute) true idXyz).
Proof.
  destruct (active_iff_observed defaultConfig (envAt 30 [lineXyz]) [lineXyz] tableAbc)
    as (_ & Hseen & Hunseen & Hflag & _ & Hkept).
  - apply mapOrder_ok.
  - vm_compute. reflexivity.
  - split_and!.
    + apply Hseen. refine (bool_decide_unpack _ _). vm_compute. exact I.
    + apply Hunseen. refine (bool_decide_unpack _ _). vm_compute. exact I.
    + apply Hflag. vm_compute. reflexivity.
    + apply Hflag. vm_compute. reflexivity.
    + apply Hkept; vm_compute; reflexivity.
    + apply Hkept; vm_compute; reflexivity.
Defined.

(** C6. When the listing fails, the cycle stops there: the table is left
    as it was and nothing but the error is reported. *)
Theorem failed_listing_keeps_table (cfg : Config) (e : Env)
    (m : gmap string ConnectionInfo) :
  ssLines e = None ->
  tableOf (monitorConnections cfg e m) = m
  /\ outputOf (monitorConnections cfg e m) = [EvCycle; EvListError].
Proof. intros H. by rewrite (monitor_failed cfg e m H). Qed.

Lemma failed_listing_keeps_table_witness :
  tableOf (monitorConnections defaultConfig (noListingEnv 150) tableAbc) = tableAbc
  /\ outputOf (monitorConnections defaultConfig (noListingEnv 150) tableAbc)
     = [EvCycle; EvListError].
Proof. apply (failed_listing_keeps_table defaultConfig (noListingEnv 150) tableAbc). reflexivity. Defined.

(** X20. Among the lines that the scanner hands out, one in which
    [ino:<digits>] does not occur yields no record (only a warning is
    logged), and the listing goes on: it returns without error the records
    obtained without that line. *)
Theorem unmatched_line_skipped (e e' : Env) (pre post : list string) (bad : string)
    (m : gmap string ConnectionInfo) :
  ~ hasInodePattern bad ->
  ssLines e = Some (pre ++ bad :: post) ->
  ssLines e' = Some (pre ++ post) ->
  (forall acc m', scanLine bad acc m' = (acc, m', [EvInodeWarning bad]))
  /\ valueOf (listCurrentConnections e m) = Some (parsed pre ++ parsed post)
  /\ valueOf (listCurrentConnections e m) = valueOf (listCurrentConnections e' m)
  /\ tableOf (listCurrentConnections e m) = m.
Proof.
  intros Hbad He He'.
  assert (FindStringSubmatch bad = []) as Hm.
  { destruct (FindStringSubmatch_length bad) as [Hm | Hm]; [done |].
    exfalso. apply Hbad, FindStringSubmatch_spec. intros Hm'. by rewrite Hm' in Hm. }
  assert (lineRecords bad = []) as Hnil.
  { unfold lineRecords, scanLine. by rewrite Hm. }
  split_and!.
  - intros acc m'. unfold scanLine. by rewrite Hm.
  - rewrite (listCurrentConnections_eq e _ m He). cbn.
    by rewrite parsed_app, parsed_cons, Hnil.
  - rewrite (listCurrentConnections_eq e _ m He), (listCurrentConnections_eq e' _ m He').
    cbn. by rewrite !parsed_app, parsed_cons, Hnil.
  - by rewrite (listCurrentConnections_eq e _ m He).
Qed.

Lemma not_hasInodePattern_lineNoInode : ~ hasInodePattern lineNoInode.
Proof.
  intros H. apply FindStringSubmatch_spec in H. apply H. vm_compute. reflexivity.
Defined.

Lemma unmatched_line_skipped_witness :
  (forall acc m', scanLine lineNoInode acc m' = (acc, m', [EvInodeWarning lineNoInode]))
  /\ valueOf (listCurrentConnections (envAt 0 [lineAbc; lineNoInode; lineXyz]) ∅)
     = Some (parsed [lineAbc] ++ parsed [lineXyz])
  /\ valueOf (listCurrentConnections (envAt 0 [lineAbc; lineNoInode; lineXyz]) ∅)
     = valueOf (listCurrentConnections (envAt 0 [lineAbc; lineXyz]) ∅)
  /\ tableOf (listCurrentConnections (envAt 0 [lineAbc; lineNoInode; lineXyz]) ∅) = ∅.
Proof.
  apply (unmatched_line_skipped (envAt 0 [lineAbc; lineNoInode; lineXyz])
           (envAt 0 [lineAbc; lineXyz]) [lineAbc] [lineXyz] lineNoInode ∅).
  - exact not_hasInodePattern_lineNoInode.
  - reflexivity.
  - reflexivity.
Defined.

(** X21. Among the lines that the scanner hands out, one that holds the
    pattern but has fewer than five fields yields no record and no log
    line, and the listing goes on as if the line were not there. *)
Theorem short_line_dropped (e e' : Env) (pre post : list string) (bad : string)
    (m : gmap string ConnectionInfo) :
  hasInodePattern bad ->
  (length (Fields bad) < 5)%nat ->
  ssLines e = Some (pre ++ bad :: post) ->
  ssLines e' = Some (pre ++ post) ->
  (forall acc m', scanLine bad acc m' = (acc, m', []))
  /\ listCurrentConnections e m = listCurrentConnections e' m.
Proof.
  intros Hpat Hlen He He'.
  assert (lineRecords bad = [] /\ lineOutput bad = []) as [Hnil Hout].
  { unfold lineRecords, lineOutput, scanLine.
    apply FindStringSubmatch_spec in Hpat.
    destruct (FindStringSubmatch_length bad) as [Hm | Hm]; [done |].
    destruct (length (FindStringSubmatch bad) <? 2)%nat eqn:E1.
    { apply Nat.ltb_lt in E1. lia. }
    destruct (5 <=? length (Fields bad))%nat eqn:E2; [|done].
    apply Nat.leb_le in E2. lia. }
  split.
  - intros acc m'. rewrite scanLine_eq, Hnil, Hout. by rewrite app_nil_r.
  - rewrite (listCurrentConnections_eq e _ m He), (listCurrentConnections_eq e' _ m He').
    rewrite !parsed_app, parsed_cons, Hnil, !fmap_app, fmap_cons, !concat_app.
    cbn [concat]. by rewrite Hout.
Qed.

Lemma hasInodePattern_lineShort : hasInodePattern lineShort.
Proof. apply FindStringSubmatch_spec. vm_compute. discriminate. Defined.

Lemma short_line_dropped_witness :
  (forall acc m', scanLine lineShort acc m' = (acc, m', []))
  /\ listCurrentConnections (envAt 0 [lineAbc; lineShort; lineXyz]) ∅
     = listCurrentConnections (envAt 0 [lineAbc; lineXyz]) ∅.
Proof.
  apply (short_line_dropped (envAt 0 [lineAbc; lineShort; lineXyz])
           (envAt 0 [lineAbc; lineXyz]) [lineAbc] [lineXyz] lineShort ∅).
  - exact hasInodePattern_lineShort.
  - vm_compute. lia.
  - reflexivity.
  - reflexivity.
Defined.

(** C10. In a run of the program, every call of [killConnection] made by a
    cycle finds its inode in the table and splits the connection ID into
    exactly the local and the peer address, so it reaches the [ss --kill]
    command: neither error return is taken. *)
Theorem kill_errors_unreachable (cfg : Config) (t : Z) (m : gmap string ConnectionInfo)
    (e : Env) (k : string) (r : KillResult) :
  reachable cfg t m -> rangeOk e -> t <= now e ->
  EvKillConnection k r ∈ outputOf (monitorConnections cfg e m) ->
  exists (lines : list string) (c : ConnectionInfo) (localAddr peerAddr : string),
    ssLines e = Some lines
    /\ merged e lines m !! k = Some c
    /\ killRule cfg (now e) c = true
    /\ Split (ConnectionID c) " -> " = [localAddr; peerAddr]
    /\ r = KillRan peerAddr localAddr (ssKill e peerAddr localAddr).
Proof.
  intros Hr Hord Ht Hev. destruct (ssLines e) as [lines|] eqn:Hl.
  - destruct (monitor_kill_event cfg e lines Hord Hl m k r Hev) as (c & Hc & Hkill & ->).
    pose proof (merged_ok e lines t m (reachable_ok cfg t m Hr) Ht k c Hc)
      as (_ & _ & _ & Hid).
    destruct (killResultOf_wellFormed e c Hid) as (l & p & Hsplit & Hres).
    by exists lines, c, l, p.
  - rewrite (monitor_failed cfg e m Hl) in Hev. cbn in Hev.
    apply elem_of_cons in Hev as [? | Hev]; [done |].
    by apply list_elem_of_singleton in Hev.
Qed.

Lemma kill_errors_unreachable_witness :
  exists (lines : list string) (c : ConnectionInfo) (localAddr peerAddr : string),
    ssLines (envAt 150 [lineAbc]) = Some lines
    /\ merged (envAt 150 [lineAbc]) lines tableAbc !! "101" = Some c
    /\ killRule defaultConfig (now (envAt 150 [lineAbc])) c = true
    /\ Split (ConnectionID c) " -> " = [localAddr; peerAddr]
    /\ KillRan "10.0.0.9:41234" "10.0.0.5:50090" true
       = KillRan peerAddr localAddr (ssKill (envAt 150 [lineAbc]) peerAddr localAddr).
Proof.
  apply (kill_errors_unreachable defaultConfig 0 tableAbc (envAt 150 [lineAbc]) "101").
  - exact reachable_tableAbc.
  - apply mapOrder_ok.
  - vm_compute. discriminate.
  - refine (bool_decide_unpack _ _). vm_compute. exact I.
Defined.

(** ** Duplicate inodes in one snapshot (C7) *)

(** C7, as stated, fails: with two records for inode 101 in one snapshot,
    the entry created by the merge carries the connection ID of the first
    record, not of the last. *)
Lemma duplicate_last_wins_counterexample :
  parsed [lineAbc; lineAbcDup]
  = [mkConn "101" 0 0 true idAbc; mkConn "101" 0 0 true idDup]
  /\ merged (envAt 0 [lineAbc; lineAbcDup]) [lineAbc; lineAbcDup] ∅ !! "101"
     = Some (mkConn "101" 0 0 true idAbc)
  /\ tableOf (monitorConnections defaultConfig (envAt 0 [lineAbc; lineAbcDup]) ∅) !! "101"
     = Some (mkConn "101" 0 0 true idAbc)
  /\ idAbc <> idDup.
Proof. vm_compute. split_and!; [reflexivity | reflexivity | reflexivity | discriminate]. Qed.

(** C7, amended.  Among the records of a snapshot that carry one inode, the
    first decides: if the inode was not tracked, the entry created by the
    merge takes the connection ID of the first such record; if it was
    tracked, the entry keeps its connection ID and first-seen and is only
    refreshed.  Later records with the same inode change nothing more. *)
Theorem duplicate_first_wins (e : Env) (lines : list string)
    (m : gmap string ConnectionInfo) (pre : list ConnectionInfo) (r : ConnectionInfo)
    (post : list ConnectionInfo) :
  parsed lines = pre ++ r :: post ->
  Inode r ∉ Inode <$> pre ->
  (m !! Inode r = None ->
     merged e lines m !! Inode r
     = Some (mkConn (Inode r) (now e) (now e) true (ConnectionID r)))
  /\ (forall c0, m !! Inode r = Some c0 ->
        merged e lines m !! Inode r
        = Some (mkConn (Inode c0) (TimeAdded c0) (now e) true (ConnectionID c0))).
Proof.
  intros HL Hpre.
  assert (r ∈ parsed lines) as Hr by (rewrite HL; apply elem_of_app; right; by left).
  apply parsed_spec in Hr as [Hact _]. unfold merged. split.
  - intros Hk. rewrite HL, (mergeAll_new _ pre r post m Hk Hpre Hact).
    destruct r as [i ta ls act cid]. cbn in *. by subst.
  - intros c0 Hk. apply mergeAll_tracked_seen; [done |].
    rewrite HL, fmap_app, fmap_cons. apply elem_of_app. right. by left.
Qed.

Lemma duplicate_first_wins_witness :
  ((∅ : gmap string ConnectionInfo) !! "101" = None ->
     merged (envAt 30 [lineAbc; lineAbcDup]) [lineAbc; lineAbcDup] ∅ !! "101"
     = Some (mkConn "101" (30 * Minute) (30 * Minute) true idAbc))
  /\ (forall c0, (∅ : gmap string ConnectionInfo) !! "101" = Some c0 ->
        merged (envAt 30 [lineAbc; lineAbcDup]) [lineAbc; lineAbcDup] ∅ !! "101"
        = Some (mkConn (Inode c0) (TimeAdded c0) (30 * Minute) true (ConnectionID c0))).
Proof.
  apply (duplicate_first_wins (envAt 30 [lineAbc; lineAbcDup]) [lineAbc; lineAbcDup] ∅
           [] (mkConn "101" 0 0 true idAbc) [mkConn "101" 0 0 true idDup]).
  - vm_compute. reflexivity.
  - cbn. apply not_elem_of_nil.
Defined.

(** ** An inode seen in two consecutive snapshots (C5) *)

(** C5, as stated, fails: inode 101, first seen at 0, is in the snapshots
    of the cycles at 150 and 180 minutes.  The first of them kills and
    evicts it, so the second tracks it anew: after the second merge its
    first-seen is 180 minutes, and there is no entry after the first cycle
    whose first-seen it could have kept. *)
Lemma two_snapshots_first_seen_counterexample :
  "101" ∈ observed [lineAbc]
  /\ merged (failingKillEnv 150 [lineAbc]) [lineAbc] tableAbc !! "101"
     = Some (mkConn "101" 0 (150 * Minute) true idAbc)
  /\ tableKilled !! "101" = None
  /\ merged (envAt 180 [lineAbc]) [lineAbc] tableKilled !! "101"
     = Some (mkConn "101" (180 * Minute) (180 * Minute) true idAbc)
  /\ ~ (exists c1 c2,
          tableKilled !! "101" = Some c1
          /\ merged (envAt 180 [lineAbc]) [lineAbc] tableKilled !! "101" = Some c2
          /\ LastSeen c2 = now (envAt 180 [lineAbc])
          /\ TimeAdded c2 = TimeAdded c1).
Proof.
  assert (tableKilled !! "101" = None) as Hnone by (vm_compute; reflexivity).
  split_and!.
  - refine (bool_decide_unpack _ _). vm_compute. exact I.
  - vm_compute. reflexivity.
  - exact Hnone.
  - vm_compute. reflexivity.
  - intros (c1 & c2 & H1 & _). rewrite Hnone in H1. discriminate.
Qed.

(** C5, amended.  In a run of the program, an inode that is in the
    snapshots of two consecutive cycles and is still tracked when the first
    of them ends has, after the second merge, one entry: its last-seen is
    the second cycle's now, its first-seen is the one it had after the
    first cycle, and no other key holds an entry with that inode. *)
Theorem seen_twice_keeps_first_seen (cfg : Config) (t : Z)
    (m0 : gmap string ConnectionInfo) (e1 e2 : Env) (lines1 lines2 : list string)
    (k : string) (c1 : ConnectionInfo) :
  reachable cfg t m0 -> rangeOk e1 -> t <= now e1 -> now e1 <= now e2 ->
  ssLines e1 = Some lines1 ->
  k ∈ observed lines1 -> k ∈ observed lines2 ->
  tableOf (monitorConnections cfg e1 m0) !! k = Some c1 ->
  exists c2,
    merged e2 lines2 (tableOf (monitorConnections cfg e1 m0)) !! k = Some c2
    /\ LastSeen c2 = now e2
    /\ TimeAdded c2 = TimeAdded c1
    /\ (forall k' c', merged e2 lines2 (tableOf (monitorConnections cfg e1 m0)) !! k' = Some c' ->
          Inode c' = k -> k' = k).
Proof.
  intros Hr Hord Ht Ht2 Hl Hin1 Hin2 Hc1.
  exists (mkConn (Inode c1) (TimeAdded c1) (now e2) true (ConnectionID c1)).
  split_and!; [| done | done |].
  - unfold merged. by apply mergeAll_tracked_seen.
  - intros k' c' Hc' Hino.
    assert (tableOk (now e1) (tableOf (monitorConnections cfg e1 m0))) as Hok.
    { apply (monitor_ok cfg e1 t m0 Hord (reachable_ok cfg t m0 Hr) Ht). }
    destruct (merged_ok e2 lines2 _ _ Hok Ht2 k' c' Hc') as (Hkey & _). congruence.
Qed.

Lemma seen_twice_keeps_first_seen_witness :
  exists c2,
    merged (envAt 60 [lineAbc]) [lineAbc]
      (tableOf (monitorConnections defaultConfig (envAt 30 [lineAbc]) tableAbc)) !! "101" = Some c2
    /\ LastSeen c2 = now (envAt 60 [lineAbc])
    /\ TimeAdded c2 = TimeAdded (mkConn "101" 0 (30 * Minute) true idAbc)
    /\ (forall k' c',
          merged (envAt 60 [lineAbc]) [lineAbc]
            (tableOf (monitorConnections defaultConfig (envAt 30 [lineAbc]) tableAbc)) !! k' = Some c' ->
          Inode c' = "101" -> k' = "101").
Proof.
  apply (seen_twice_keeps_first_seen defaultConfig 0 tableAbc (envAt 30 [lineAbc])
           (envAt 60 [lineAbc]) [lineAbc] [lineAbc] "101").
  - exact reachable_tableAbc.
  - apply mapOrder_ok.
  - vm_compute. discriminate.
  - vm_compute. discriminate.
  - reflexivity.
  - refine (bool_decide_unpack _ _). vm_compute. exact I.
  - refine (bool_decide_unpack _ _). vm_compute. exact I.
  - vm_compute. reflexivity.
Defined.

(** ** The worked example of the specification (C1) *)

(** C1, as stated, fails: after the cycle at 120 minutes the entry first
    seen at 0 and active in every cycle is still tracked, and
    [killConnection] has not been called for it: 120 minutes is not more
    than max-active. *)
Lemma example_killed_at_120_counterexample :
  tableOf runTo120 !! "101" = Some (mkConn "101" 0 (120 * Minute) true idAbc)
  /\ killCalls "101" (outputOf runTo120) = 0%nat.
Proof. vm_compute. split; reflexivity. Qed.

Section Example.

Variable port : string.

(** An entry first seen at 0 and observed in the cycle at minute [t]
    survives that cycle as long as [t] is at most 120. *)
Lemma active_step (e : Env) (t : Z) (lines : list string)
    (m : gmap string ConnectionInfo) (k : string) (c : ConnectionInfo) :
  cycleAt e t lines -> 0 <= t <= 120 ->
  m !! k = Some c -> TimeAdded c = 0 -> k ∈ observed lines ->
  tableOf (monitorConnections (exampleConfig port) e m) !! k
  = Some (mkConn (Inode c) 0 (t * Minute) true (ConnectionID c)).
Proof.
  intros (Hord & Hnow & Hl) Ht Hc Hta Hin.
  rewrite (monitor_seen (exampleConfig port) e lines Hord Hl m k c Hc Hin), Hnow, Hta.
  unfold keep, killRule, expiryRule. cbn [TimeAdded LastSeen IsActive maxActiveDurMin maxInactiveDurMin exampleConfig].
  replace (minutes 120 <? Sub (t * Minute) 0) with false.
  2:{ symmetry. apply Z.ltb_ge. unfold Sub, minDuration, maxDuration, Minute.
      change (minutes 120) with 7200000000000.
      repeat case_match; lia. }
  replace (minutes 60 <? Sub (t * Minute) (t * Minute)) with false; [done |].
  symmetry. apply Z.ltb_ge. unfold Sub. rewrite Z.sub_diag. vm_compute. discriminate.
Qed.

(** An entry last seen at 0 and not observed in the cycle at minute [t]
    survives it, inactive, as long as [t] is at most 60. *)
Lemma inactive_step (e : Env) (t : Z) (lines : list string)
    (m : gmap string ConnectionInfo) (k : string) (c : ConnectionInfo) :
  cycleAt e t lines -> 0 <= t <= 60 ->
  m !! k = Some c -> LastSeen c = 0 -> k ∉ observed lines ->
  tableOf (monitorConnections (exampleConfig port) e m) !! k = Some (setIsActive false c).
Proof.
  intros (Hord & Hnow & Hl) Ht Hc Hls Hin.
  rewrite (monitor_unseen (exampleConfig port) e lines Hord Hl m k c Hc Hin), Hnow.
  unfold keep, killRule, expiryRule.
  cbn [TimeAdded LastSeen IsActive setIsActive maxActiveDurMin maxInactiveDurMin exampleConfig].
  rewrite andb_false_r, Hls. cbn [orb].
  replace (minutes 60 <? Sub (t * Minute) 0) with false; [done |].
  symmetry. apply Z.ltb_ge. unfold Sub, minDuration, maxDuration, Minute.
  change (minutes 60) with 3600000000000.
  repeat case_match; lia.
Qed.

(** An inode first observed in the cycle at minute 0 is tracked from 0. *)
Lemma first_step (e : Env) (lines : list string) (k : string) :
  cycleAt e 0 lines -> k ∈ observed lines ->
  exists inode connID,
    tableOf (monitorConnections (exampleConfig port) e ∅) !! k = Some (mkConn inode 0 0 true connID).
Proof.
  intros (Hord & Hnow & Hl) Hin.
  destruct (monitor_new (exampleConfig port) e lines Hord Hl ∅ k (lookup_empty k) Hin)
    as (r & Hr & Hk & _ & Hfinal).
  apply parsed_spec in Hr as [Hact _].
  exists (Inode r), (ConnectionID r). rewrite Hfinal, Hnow.
  destruct r as [i ta ls act cid]. cbn in Hact. subst act.
  vm_compute. reflexivity.
Qed.

(** The same entry, observed again in the cycle at minute 150, is selected
    by the kill rule. *)
Lemma kill_step (e : Env) (lines : list string)
    (m : gmap string ConnectionInfo) (k : string) (c : ConnectionInfo) :
  cycleAt e 150 lines ->
  m !! k = Some c -> TimeAdded c = 0 -> k ∈ observed lines ->
  tableOf (monitorConnections (exampleConfig port) e m) !! k = None
  /\ killCalls k (outputOf (monitorConnections (exampleConfig port) e m)) = 1%nat.
Proof.
  intros (Hord & Hnow & Hl) Hc Hta Hin. split.
  - rewrite (monitor_seen (exampleConfig port) e lines Hord Hl m k c Hc Hin), Hnow, Hta.
    reflexivity.
  - rewrite (monitor_killCalls (exampleConfig port) e lines Hord Hl). unfold merged.
    rewrite (mergeAll_tracked_seen _ _ _ _ _ Hc Hin), Hnow, Hta.
    reflexivity.
Qed.

(** No call of [killConnection] for an entry that survives the cycle. *)
Lemma survivor_not_killed (e : Env) (lines : list string)
    (m : gmap string ConnectionInfo) (k : string) (c : ConnectionInfo) :
  rangeOk e -> ssLines e = Some lines ->
  tableOf (monitorConnections (exampleConfig port) e m) !! k = Some c ->
  killCalls k (outputOf (monitorConnections (exampleConfig port) e m)) = 0%nat.
Proof.
  intros Hord Hl Hc. rewrite (monitor_killCalls (exampleConfig port) e lines Hord Hl).
  rewrite (monitor_lookup (exampleConfig port) e lines Hord Hl) in Hc.
  apply keep_Some in Hc as (-> & -> & _). reflexivity.
Qed.

(** An entry last seen at 0, inactive, and not observed in the cycle at
    minute 90 is removed without a call of [killConnection]. *)
Lemma expiry_step (e : Env) (lines : list string)
    (m : gmap string ConnectionInfo) (k : string) (c : ConnectionInfo) :
  cycleAt e 90 lines ->
  m !! k = Some c -> LastSeen c = 0 -> k ∉ observed lines ->
  tableOf (monitorConnections (exampleConfig port) e m) !! k = None
  /\ killCalls k (outputOf (monitorConnections (exampleConfig port) e m)) = 0%nat.
Proof.
  intros (Hord & Hnow & Hl) Hc Hls Hin. split.
  - rewrite (monitor_unseen (exampleConfig port) e lines Hord Hl m k c Hc Hin), Hnow.
    unfold keep, killRule, expiryRule.
    cbn [TimeAdded LastSeen IsActive setIsActive]. rewrite andb_false_r, Hls.
    reflexivity.
  - rewrite (monitor_killCalls (exampleConfig port) e lines Hord Hl). unfold merged.
    rewrite (mergeAll_tracked_unseen _ _ _ _ _ Hc Hin).
    unfold killRule. cbn [IsActive setIsActive]. by rewrite andb_false_r.
Qed.

End Example.

(** C1, amended.  With max-active 120, max-inactive 60 and cycles at 0, 30,
    ..., 150 minutes from an empty table: an inode observed in every cycle
    is still tracked, active, with first-seen 0 after the cycle at 120
    minutes, and the cycle at 150 minutes calls [killConnection] for it
    once and evicts it; an inode observed at 0 only is tracked and inactive
    after the cycles at 30 and 60 minutes, and the cycle at 90 minutes
    removes it without a call of [killConnection]. *)
Theorem example_schedule (port abc xyz : string) (e0 e1 e2 e3 e4 e5 : Env)
    (l0 l1 l2 l3 l4 l5 : list string) :
  cycleAt e0 0 l0 -> cycleAt e1 30 l1 -> cycleAt e2 60 l2 ->
  cycleAt e3 90 l3 -> cycleAt e4 120 l4 -> cycleAt e5 150 l5 ->
  abc ∈ observed l0 -> abc ∈ observed l1 -> abc ∈ observed l2 ->
  abc ∈ observed l3 -> abc ∈ observed l4 -> abc ∈ observed l5 ->
  xyz ∈ observed l0 -> xyz ∉ observed l1 -> xyz ∉ observed l2 -> xyz ∉ observed l3 ->
  let cfg := exampleConfig port in
  let T0 := tableOf (monitorConnections cfg e0 ∅) in
  let T1 := tableOf (monitorConnections cfg e1 T0) in
  let T2 := tableOf (monitorConnections cfg e2 T1) in
  let T3 := tableOf (monitorConnections cfg e3 T2) in
  let T4 := tableOf (monitorConnections cfg e4 T3) in
  let T5 := tableOf (monitorConnections cfg e5 T4) in
  (exists inode connID, T4 !! abc = Some (mkConn inode 0 (120 * Minute) true connID))
  /\ killCalls abc (outputOf (monitorConnections cfg e4 T3)) = 0%nat
  /\ T5 !! abc = None
  /\ killCalls abc (outputOf (monitorConnections cfg e5 T4)) = 1%nat
  /\ (exists inode connID, T1 !! xyz = Some (mkConn inode 0 0 false connID))
  /\ (exists inode connID, T2 !! xyz = Some (mkConn inode 0 0 false connID))
  /\ T3 !! xyz = None
  /\ killCalls xyz (outputOf (monitorConnections cfg e3 T2)) = 0%nat.
Proof.
  intros C0 C1 C2 C3 C4 C5 A0 A1 A2 A3 A4 A5 X0 X1 X2 X3 cfg T0 T1 T2 T3 T4 T5.
  destruct (first_step port e0 l0 abc C0 A0) as (ia & ca & Ha0).
  pose proof (active_step port e1 30 l1 T0 abc _ C1 ltac:(lia) Ha0 eq_refl A1) as Ha1.
  pose proof (active_step port e2 60 l2 T1 abc _ C2 ltac:(lia) Ha1 eq_refl A2) as Ha2.
  pose proof (active_step port e3 90 l3 T2 abc _ C3 ltac:(lia) Ha2 eq_refl A3) as Ha3.
  pose proof (active_step port e4 120 l4 T3 abc _ C4 ltac:(lia) Ha3 eq_refl A4) as Ha4.
  destruct (kill_step port e5 l5 T4 abc _ C5 Ha4 eq_refl A5) as [Ha5 Hk5].
  destruct (first_step port e0 l0 xyz C0 X0) as (ix & cx & Hx0).
  pose proof (inactive_step port e1 30 l1 T0 xyz _ C1 ltac:(lia) Hx0 eq_refl X1) as Hx1.
  pose proof (inactive_step port e2 60 l2 T1 xyz _ C2 ltac:(lia) Hx1 eq_refl X2) as Hx2.
  destruct (expiry_step port e3 l3 T2 xyz _ C3 Hx2 eq_refl X3) as [Hx3 Hk3].
  split_and!.
  - by exists ia, ca.
  - destruct C4 as (Hord & _ & Hl). by apply (survivor_not_killed port e4 l4 T3 abc _ Hord Hl Ha4).
  - exact Ha5.
  - exact Hk5.
  - by exists ix, cx.
  - by exists ix, cx.
  - exact Hx3.
  - exact Hk3.
Qed.

Lemma example_schedule_witness :
  let cfg := exampleConfig "50090" in
  let T0 := tableOf (monitorConnections cfg (envAt 0 [lineAbc; lineXyz]) ∅) in
  let T1 := tableOf (monitorConnections cfg (envAt 30 [lineAbc]) T0) in
  let T2 := tableOf (monitorConnections cfg (envAt 60 [lineAbc]) T1) in
  let T3 := tableOf (monitorConnections cfg (envAt 90 [lineAbc]) T2) in
  let T4 := tableOf (monitorConnections cfg (envAt 120 [lineAbc]) T3) in
  let T5 := tableOf (monitorConnections cfg (envAt 150 [lineAbc]) T4) in
  (exists inode connID, T4 !! "101" = Some (mkConn inode 0 (120 * Minute) true connID))
  /\ killCalls "101" (outputOf (monitorConnections cfg (envAt 120 [lineAbc]) T3)) = 0%nat
  /\ T5 !! "101" = None
  /\ killCalls "101" (outputOf (monitorConnections cfg (envAt 150 [lineAbc]) T4)) = 1%nat
  /\ (exists inode connID, T1 !! "202" = Some (mkConn inode 0 0 false connID))
  /\ (exists inode connID, T2 !! "202" = Some (mkConn inode 0 0 false connID))
  /\ T3 !! "202" = None
  /\ killCalls "202" (outputOf (monitorConnections cfg (envAt 90 [lineAbc]) T2)) = 0%nat.
Proof.
  apply (example_schedule "50090" "101" "202"
           (envAt 0 [lineAbc; lineXyz]) (envAt 30 [lineAbc]) (envAt 60 [lineAbc])
           (envAt 90 [lineAbc]) (envAt 120 [lineAbc]) (envAt 150 [lineAbc])
           [lineAbc; lineXyz] [lineAbc] [lineAbc] [lineAbc] [lineAbc] [lineAbc]);
    try (apply cycleAt_envAt; vm_compute; reflexivity);
    refine (bool_decide_unpack _ _); vm_compute; exact I.
Defined.

(** * Further properties of the code *)

(** ** The library functions as the parser and the actuator use them *)

Lemma length_append (s t : string) :
  String.length (s +:+ t) = (String.length s + String.length t)%nat.
Proof.
  induction s as [|a s IH]; [done |]. rewrite append_cons. cbn [String.length].
  by rewrite IH.
Qed.

Lemma takeDigits_allDigits (s : string) : allDigits (takeDigits s) = true.
Proof.
  induction s as [|a s IH]; [done |]. cbn [takeDigits].
  destruct (isDigit a) eqn:E; [|done]. cbn [allDigits]. by rewrite E, IH.
Qed.

Lemma takeDigits_prefix (s : string) : exists rest, s = takeDigits s +:+ rest.
Proof.
  induction s as [|a s [rest IH]]; [by exists "" |]. cbn [takeDigits].
  destruct (isDigit a).
  - exists rest. by rewrite append_cons, <- IH.
  - by exists (String a s).
Qed.

Lemma takeDigits_append (ds rest : string) :
  allDigits ds = true -> startsWithDigit rest = false ->
  takeDigits (ds +:+ rest) = ds.
Proof.
  intros Hds Hrest. induction ds as [|a ds IH].
  - rewrite append_empty. destruct rest as [|b rest]; [done |].
    cbn in Hrest. cbn [takeDigits]. by rewrite Hrest.
  - cbn [allDigits] in Hds. apply andb_true_iff in Hds as [Ha Hds].
    rewrite append_cons. cbn [takeDigits]. by rewrite Ha, IH.
Qed.

Lemma matchInodeHere_here (ds rest : string) :
  ds <> "" -> allDigits ds = true -> startsWithDigit rest = false ->
  matchInodeHere ("ino:" +:+ ds +:+ rest) = ["ino:" +:+ ds; ds].
Proof.
  intros Hne Hds Hrest. unfold matchInodeHere.
  rewrite (proj2 (isPrefix_spec "ino:" _)) by eauto.
  change (dropBytes 4 ("ino:" +:+ ds +:+ rest)) with (ds +:+ rest).
  rewrite takeDigits_append by done. by destruct ds.
Qed.

Lemma hasInodePattern_cons (a : ascii) (s : string) :
  hasInodePattern s -> hasInodePattern (String a s).
Proof. intros (pre & d & post & -> & Hd). by exists (String a pre), d, post. Qed.

(** A match at the head of [pre ++ "ino:" ++ ...], with [pre] not empty,
    lies within [pre ++ "ino:"]. *)
Lemma match_at_head_within (pre tail : string) (d : ascii) (post : string) :
  pre <> "" ->
  pre +:+ "ino:" +:+ tail = "ino:" +:+ String d post -> isDigit d = true ->
  hasInodePattern (pre +:+ "ino:").
Proof.
  intros Hne Heq Hd.
  destruct pre as [|a1 [|a2 [|a3 [|a4 [|a5 pre]]]]]; [done | | | | |];
    rewrite ?append_cons, ?append_empty in Heq; injection Heq as Heq;
    try discriminate; subst; try discriminate.
  exists "", d, (pre +:+ "ino:"). by rewrite !append_cons, append_empty.
Qed.

(** X1. The regular expression finds the leftmost occurrence of ["ino:"]
    followed by a digit and captures the whole run of digits that follows:
    when no match starts inside [pre], the result for
    [pre ++ "ino:" ++ ds ++ rest] is the pair of the match and [ds]. *)
Theorem FindStringSubmatch_leftmost_longest (pre ds rest : string) :
  ds <> "" -> allDigits ds = true -> startsWithDigit rest = false ->
  ~ hasInodePattern (pre +:+ "ino:") ->
  FindStringSubmatch (pre +:+ "ino:" +:+ ds +:+ rest) = ["ino:" +:+ ds; ds].
Proof.
  intros Hne Hds Hrest. induction pre as [|a pre IH]; intros Hpre.
  - rewrite append_empty.
    pose proof (matchInodeHere_here ds rest Hne Hds Hrest) as Hm.
    rewrite !append_cons, append_empty in *. cbn [FindStringSubmatch].
    by rewrite Hm.
  - rewrite append_cons. cbn [FindStringSubmatch].
    destruct (matchInodeHere (String a (pre +:+ "ino:" +:+ ds +:+ rest))) as [|x l] eqn:E.
    + apply IH. intros H. apply Hpre. rewrite append_cons. by apply hasInodePattern_cons.
    + exfalso. apply Hpre.
      assert (matchInodeHere (String a (pre +:+ "ino:" +:+ ds +:+ rest)) <> []) as Hm
        by (by rewrite E).
      apply matchInodeHere_spec in Hm as (d & post & Heq & Hd).
      apply (match_at_head_within (String a pre) (ds +:+ rest) d post); [done | | done].
      by rewrite append_cons.
Qed.

Lemma FindStringSubmatch_leftmost_longest_witness :
  FindStringSubmatch ("uid:0 ino:x " +:+ "ino:" +:+ "4711" +:+ " sk:3 ino:9")
  = ["ino:" +:+ "4711"; "4711"].
Proof.
  apply (FindStringSubmatch_leftmost_longest "uid:0 ino:x " "4711" " sk:3 ino:9").
  - discriminate.
  - reflexivity.
  - reflexivity.
  - intros H. apply FindStringSubmatch_spec in H. apply H. vm_compute. reflexivity.
Defined.

Lemma splitGo_nonempty (sep : string) (s : string) :
  forall (skip : nat) (cur : string), splitGo sep skip cur s <> [].
Proof.
  induction s as [|a s IH]; intros skip cur; cbn [splitGo]; [done |].
  destruct skip; [|apply IH]. destruct (isPrefix sep (String a s)); [done | apply IH].
Qed.

Lemma splitGo_skip (sep u : string) : forall (cur t : string),
  splitGo sep (String.length u) cur (u +:+ t) = splitGo sep 0 cur t.
Proof.
  induction u as [|a u IH]; intros cur t; [done |].
  rewrite append_cons. cbn [String.length splitGo]. apply IH.
Qed.

Lemma Join_cons (p : string) (rest : list string) (sep : string) :
  rest <> [] -> Join (p :: rest) sep = p +:+ sep +:+ Join rest sep.
Proof. by destruct rest. Qed.

Lemma Join_splitGo (sep : string) (n : nat) : forall (s cur : string),
  sep <> "" -> (String.length s <= n)%nat ->
  Join (splitGo sep 0 cur s) sep = cur +:+ s.
Proof.
  induction n as [|n IH]; intros s cur Hsep Hlen.
  - destruct s; [|cbn in Hlen; lia]. cbn. by rewrite append_nil_r.
  - destruct s as [|a s]; [cbn; by rewrite append_nil_r |].
    cbn [splitGo]. destruct (isPrefix sep (String a s)) eqn:E.
    + apply isPrefix_spec in E as [t Ht].
      destruct sep as [|b sep]; [done |].
      rewrite append_cons in Ht. injection Ht as -> ->.
      replace (String.length (String b sep) - 1)%nat with (String.length sep)
        by (cbn [String.length]; lia).
      rewrite splitGo_skip.
      rewrite Join_cons by apply splitGo_nonempty.
      rewrite IH; [by rewrite append_empty, append_cons | done |].
      cbn [String.length] in Hlen. rewrite length_append in Hlen. lia.
    + rewrite IH; [apply snoc_append | done |]. cbn [String.length] in Hlen. lia.
Qed.

(** X2. [strings.Split] loses nothing: joining the parts with the separator
    gives the string back, and there is always at least one part. *)
Theorem Join_Split (s sep : string) :
  sep <> "" -> Join (Split s sep) sep = s /\ Split s sep <> [].
Proof.
  intros Hsep. split; [|apply splitGo_nonempty].
  unfold Split. by rewrite (Join_splitGo sep (String.length s) s "" Hsep).
Qed.

Lemma Join_Split_witness :
  Join (Split "a -> b ->  -> c" " -> ") " -> " = "a -> b ->  -> c"
  /\ Split "a -> b ->  -> c" " -> " <> [].
Proof. apply (Join_Split "a -> b ->  -> c" " -> "). discriminate. Defined.

(** ** The snapshot parser, record by record *)

Lemma matchInodeHere_group (s d : string) :
  matchInodeHere s !! 1%nat = Some d ->
  d <> "" /\ allDigits d = true /\ exists post, s = "ino:" +:+ d +:+ post.
Proof.
  unfold matchInodeHere. destruct (isPrefix "ino:" s) eqn:E; [|done].
  apply isPrefix_spec in E as [t ->].
  change (dropBytes 4 ("ino:" +:+ t)) with t.
  pose proof (takeDigits_allDigits t) as Hall.
  destruct (takeDigits_prefix t) as [post Hpost].
  destruct (takeDigits t) as [|a ds] eqn:Ht; [done |].
  cbn. intros [= <-]. split_and!; [done | done |]. exists post. by rewrite <- Hpost.
Qed.

Lemma FindStringSubmatch_group (s d : string) :
  FindStringSubmatch s !! 1%nat = Some d ->
  d <> "" /\ allDigits d = true /\
  exists pre post, s = pre +:+ "ino:" +:+ d +:+ post.
Proof.
  induction s as [|a s IH]; cbn [FindStringSubmatch].
  - destruct (matchInodeHere "") eqn:E; [done |]. rewrite <- E. intros H.
    apply matchInodeHere_group in H as (? & ? & post & ?). split_and!; [done | done |].
    by exists "", post.
  - destruct (matchInodeHere (String a s)) eqn:E.
    + intros H. destruct (IH H) as (? & ? & pre & post & ->).
      split_and!; [done | done |]. by exists (String a pre), post.
    + rewrite <- E. intros H.
      apply matchInodeHere_group in H as (? & ? & post & ?). split_and!; [done | done |].
      by exists "", post.
Qed.

Lemma noAsciiSpace_append (s t : string) :
  noAsciiSpace (s +:+ t) = noAsciiSpace s && noAsciiSpace t.
Proof.
  induction s as [|a s IH]; [done |].
  rewrite append_cons. cbn [noAsciiSpace]. by rewrite IH, andb_assoc.
Qed.

Lemma flush_fieldOk (cur : string) :
  noAsciiSpace cur = true ->
  Forall (fun f => f <> "" /\ noAsciiSpace f = true) (flush cur).
Proof. destruct cur; cbn [flush]; intros; by repeat constructor. Qed.

Lemma fieldsGo_fieldOk (s : string) : forall (skip : nat) (cur : string),
  noAsciiSpace cur = true ->
  Forall (fun f => f <> "" /\ noAsciiSpace f = true) (fieldsGo skip cur s).
Proof.
  induction s as [|a s IH]; intros skip cur Hcur; cbn [fieldsGo].
  - by apply flush_fieldOk.
  - destruct skip as [|k]; [|by apply IH].
    destruct (spaceWidth (String a s)) as [|k] eqn:E.
    + apply IH. unfold snoc. rewrite noAsciiSpace_append, Hcur.
      cbn [noAsciiSpace spaceWidth] in *. by destruct (asciiSpace a).
    + apply Forall_app. split; [by apply flush_fieldOk | by apply IH].
Qed.

Lemma Fields_lookup_ok (s : string) (i : nat) (f : string) :
  Fields s !! i = Some f -> f <> "" /\ noAsciiSpace f = true.
Proof.
  intros H. pose proof (fieldsGo_fieldOk s 0 "" eq_refl) as HF.
  rewrite Forall_forall in HF. apply HF. by apply list_elem_of_lookup_2 in H.
Qed.

(** X3. Every record of a snapshot comes from one of its lines: its inode
    is the non-empty run of digits that follows ["ino:"] there, its
    connection ID is ["local -> peer"] for the fourth and fifth fields of
    the line, both non-empty and free of white space, and it is active with
    zero times. *)
Theorem parsed_record_shape (lines : list string) (r : ConnectionInfo) :
  r ∈ parsed lines ->
  exists (line localAddr peerAddr : string),
    line ∈ lines
    /\ Fields line !! 3%nat = Some localAddr
    /\ Fields line !! 4%nat = Some peerAddr
    /\ r = mkConn (Inode r) 0 0 true (localAddr +:+ " -> " +:+ peerAddr)
    /\ Inode r <> "" /\ allDigits (Inode r) = true
    /\ (exists pre post, line = pre +:+ "ino:" +:+ Inode r +:+ post)
    /\ localAddr <> "" /\ noAsciiSpace localAddr = true
    /\ peerAddr <> "" /\ noAsciiSpace peerAddr = true.
Proof.
  rewrite parsed_eq. intros (rs & Hr & Hrs)%elem_of_concat.
  apply list_elem_of_fmap in Hrs as (line & -> & Hline).
  unfold lineRecords, scanLine in Hr.
  destruct (length (FindStringSubmatch line) <? 2)%nat eqn:E1;
    [cbn in Hr; by apply elem_of_nil in Hr |].
  destruct (5 <=? length (Fields line))%nat eqn:E2;
    [|cbn in Hr; by apply elem_of_nil in Hr].
  cbn in Hr. apply list_elem_of_singleton in Hr.
  apply Nat.ltb_ge in E1. apply Nat.leb_le in E2.
  assert (Fields line !! 3%nat = Some (Fields line !!! 3%nat)) as H3
    by (apply list_lookup_lookup_total_lt; lia).
  assert (Fields line !! 4%nat = Some (Fields line !!! 4%nat)) as H4
    by (apply list_lookup_lookup_total_lt; lia).
  assert (FindStringSubmatch line !! 1%nat = Some (FindStringSubmatch line !!! 1%nat)) as H1
    by (apply list_lookup_lookup_total_lt; lia).
  apply FindStringSubmatch_group in H1 as (Hne & Hall & Hocc).
  destruct (Fields_lookup_ok _ _ _ H3) as [Hl1 Hl2].
  destruct (Fields_lookup_ok _ _ _ H4) as [Hp1 Hp2].
  exists line, (Fields line !!! 3%nat), (Fields line !!! 4%nat).
  subst r. cbn [Inode]. split_and!; done.
Qed.

Lemma parsed_record_shape_witness :
  exists (line localAddr peerAddr : string),
    line ∈ [lineNoInode; lineAbc]
    /\ Fields line !! 3%nat = Some localAddr
    /\ Fields line !! 4%nat = Some peerAddr
    /\ mkConn "101" 0 0 true idAbc
       = mkConn (Inode (mkConn "101" 0 0 true idAbc)) 0 0 true
           (localAddr +:+ " -> " +:+ peerAddr)
    /\ Inode (mkConn "101" 0 0 true idAbc) <> ""
    /\ allDigits (Inode (mkConn "101" 0 0 true idAbc)) = true
    /\ (exists pre post,
          line = pre +:+ "ino:" +:+ Inode (mkConn "101" 0 0 true idAbc) +:+ post)
    /\ localAddr <> "" /\ noAsciiSpace localAddr = true
    /\ peerAddr <> "" /\ noAsciiSpace peerAddr = true.
Proof.
  apply (parsed_record_shape [lineNoInode; lineAbc] (mkConn "101" 0 0 true idAbc)).
  refine (bool_decide_unpack _ _). vm_compute. exact I.
Defined.

Lemma lineRecords_output (line : string) :
  (length (lineRecords line) <= 1)%nat
  /\ lineOutput line
     = if decide (FindStringSubmatch line = []) then [EvInodeWarning line] else [].
Proof.
  unfold lineRecords, lineOutput, scanLine.
  destruct (FindStringSubmatch_length line) as [Hm | Hm].
  - rewrite Hm. cbn. split; [lia | done].
  - rewrite decide_False by (intros H; by rewrite H in Hm).
    destruct (length (FindStringSubmatch line) <? 2)%nat eqn:E1.
    { apply Nat.ltb_lt in E1. lia. }
    destruct (5 <=? length (Fields line))%nat; cbn; split; (lia || done).
Qed.

(** X4. A listing that starts returns at most one record per line that the
    scanner hands out, leaves the table alone, and logs a warning for
    exactly those of these lines in which the pattern does not match, in
    their order.  (Nothing is logged for what the scanner does not hand
    out: see X19.) *)
Theorem listing_records_and_warnings (e : Env) (lines : list string)
    (m : gmap string ConnectionInfo) :
  ssLines e = Some lines ->
  listCurrentConnections e m
  = (Some (parsed lines), m,
     EvInodeWarning <$> filter (fun line => FindStringSubmatch line = []) lines)
  /\ (length (parsed lines) <= length lines)%nat.
Proof.
  intros He. rewrite (listCurrentConnections_eq e lines m He). split.
  - f_equal. clear He. induction lines as [|line rest IH]; [done |].
    rewrite fmap_cons. cbn [concat]. rewrite filter_cons.
    destruct (lineRecords_output line) as [_ ->].
    destruct (decide (FindStringSubmatch line = [])); cbn; by rewrite IH.
  - rewrite parsed_eq. clear He. induction lines as [|line rest IH]; [done |].
    rewrite fmap_cons. cbn [concat]. rewrite length_app. cbn [length].
    destruct (lineRecords_output line) as [? _]. lia.
Qed.

Lemma listing_records_and_warnings_witness :
  listCurrentConnections (envAt 0 [lineNoInode; lineAbc; lineShort; lineNoInode]) tableAbc
  = (Some (parsed [lineNoInode; lineAbc; lineShort; lineNoInode]), tableAbc,
     EvInodeWarning <$> filter (fun line => FindStringSubmatch line = [])
                          [lineNoInode; lineAbc; lineShort; lineNoInode])
  /\ (length (parsed [lineNoInode; lineAbc; lineShort; lineNoInode])
      <= length [lineNoInode; lineAbc; lineShort; lineNoInode])%nat.
Proof.
  apply (listing_records_and_warnings
           (envAt 0 [lineNoInode; lineAbc; lineShort; lineNoInode])
           [lineNoInode; lineAbc; lineShort; lineNoInode] tableAbc).
  reflexivity.
Defined.

(** ** The termination actuator *)

(** X5. [killConnection] never changes the table and leaves one record of
    what it did.  It reports "not found" exactly when the inode is not
    tracked; when it runs [ss --kill], the two addresses it passes are the
    two sides of the entry's connection ID around [" -> "]; otherwise the ID
    does not split into exactly two parts. *)
Theorem killConnection_effect (e : Env) (k : string) (m : gmap string ConnectionInfo) :
  tableOf (killConnection e k m) = m
  /\ outputOf (killConnection e k m) = [EvKillConnection k (valueOf (killConnection e k m))]
  /\ match valueOf (killConnection e k m) with
     | KillNotFound => m !! k = None
     | KillInvalidID connID =>
       exists c, m !! k = Some c /\ connID = ConnectionID c
                 /\ length (Split connID " -> ") <> 2%nat
     | KillRan peerAddr localAddr ok =>
       exists c, m !! k = Some c
                 /\ ConnectionID c = localAddr +:+ " -> " +:+ peerAddr
                 /\ ok = ssKill e peerAddr localAddr
     end.
Proof.
  destruct (m !! k) as [c|] eqn:Hk.
  - rewrite (killConnection_found e k m c Hk). cbn [tableOf outputOf valueOf fst snd].
    split_and!; [done | done |]. unfold killResultOf.
    destruct (length (Split (ConnectionID c) " -> ") =? 2)%nat eqn:E.
    + exists c. split_and!; [done | | done].
      apply Nat.eqb_eq in E.
      pose proof (Join_splitGo " -> " (String.length (ConnectionID c)) (ConnectionID c) ""
                    ltac:(discriminate) ltac:(lia)) as HJ.
      fold (Split (ConnectionID c) " -> ") in HJ.
      by destruct (Split (ConnectionID c) " -> ") as [|l [|p [|q parts]]].
    + exists c. split_and!; [done | done |]. by apply Nat.eqb_neq in E.
  - unfold killConnection, bind, getTable. rewrite Hk. cbn. done.
Qed.

(** ** Durations *)

Lemma wrap64_id_iff (z : Z) : wrap64 z = z <-> minDuration <= z <= maxDuration.
Proof.
  unfold wrap64, minDuration, maxDuration.
  change (2 ^ 63) with 9223372036854775808.
  change (2 ^ 64) with 18446744073709551616.
  split.
  - intros H.
    pose proof (Z.mod_pos_bound (z + 9223372036854775808) 18446744073709551616 ltac:(lia)).
    lia.
  - intros H. rewrite Z.mod_small by lia. lia.
Qed.

(** X6. [time.Duration(n) * time.Minute] is the exact number of nanoseconds
    of [n] minutes exactly when [n] is between -153722867 and 153722867;
    beyond, the product wraps around. *)
Theorem minutes_exact_iff (n : Z) :
  minDuration <= n <= maxDuration ->
  (minutes n = n * Minute <-> -153722867 <= n <= 153722867).
Proof.
  intros Hn. unfold minutes. rewrite (proj2 (wrap64_id_iff n) Hn).
  rewrite wrap64_id_iff. unfold minDuration, maxDuration, Minute.
  change (2 ^ 63) with 9223372036854775808. lia.
Qed.

Lemma minutes_exact_iff_witness :
  minutes 153722868 = 153722868 * Minute <-> -153722867 <= 153722868 <= 153722867.
Proof. apply (minutes_exact_iff 153722868). vm_compute. split; discriminate. Defined.

(** ** What a cycle does and never does *)

Lemma Sub_diag (t : Z) : Sub t t = 0.
Proof. unfold Sub. rewrite Z.sub_diag. reflexivity. Qed.

Lemma Sub_nonneg (t u : Z) : u <= t -> 0 <= Sub t u.
Proof.
  intros H. unfold Sub, minDuration, maxDuration.
  change (2 ^ 63) with 9223372036854775808. repeat case_match; lia.
Qed.

Lemma lineOutput_elem (lines : list string) (ev : Event) :
  ev ∈ concat (lineOutput <$> lines) -> exists line, ev = EvInodeWarning line.
Proof.
  intros (out & Hev & Hout)%elem_of_concat.
  apply list_elem_of_fmap in Hout as (line & -> & _).
  destruct (lineRecords_output line) as [_ Hline]. rewrite Hline in Hev.
  case_decide; [|by apply elem_of_nil in Hev].
  apply list_elem_of_singleton in Hev. eauto.
Qed.

Lemma forEach_merge_output_elem (now : Z) (L : list ConnectionInfo) (ev : Event) :
  forall m : gmap string ConnectionInfo,
    ev ∈ outputOf (forEach (mergeConn now) L m) -> exists i c, ev = EvNewTracked i c.
Proof.
  induction L as [|r L IH]; intros m; [by intros ?%elem_of_nil |].
  rewrite forEach_cons_output, elem_of_app. intros [H | H]; [|by apply IH in H].
  unfold mergeConn, bind, getTable in H. destruct (m !! Inode r); cbn in H.
  - by apply elem_of_nil in H.
  - apply list_elem_of_singleton in H. eauto.
Qed.

Lemma mergeAll_output_elem (now : Z) (L : list ConnectionInfo)
    (m : gmap string ConnectionInfo) (ev : Event) :
  ev ∈ outputOf (mergeAll now L m) -> exists i c, ev = EvNewTracked i c.
Proof.
  unfold mergeAll. rewrite bind_output, markAllInactive_output. cbn [app].
  apply forEach_merge_output_elem.
Qed.

(** X7. With a max-active that is not negative, every call of
    [killConnection] in a cycle is for an inode that was already tracked
    before the cycle, is in the cycle's snapshot, and whose age
    (now - first-seen) exceeds max-active; and it is the only call for that
    inode in the cycle. *)
Theorem kills_only_overdue_observed (cfg : Config) (e : Env) (lines : list string)
    (m : gmap string ConnectionInfo) (k : string) (r : KillResult) :
  rangeOk e -> ssLines e = Some lines ->
  0 <= minutes (maxActiveDurMin cfg) ->
  EvKillConnection k r ∈ outputOf (monitorConnections cfg e m) ->
  k ∈ observed lines
  /\ killCalls k (outputOf (monitorConnections cfg e m)) = 1%nat
  /\ exists c0, m !! k = Some c0
       /\ minutes (maxActiveDurMin cfg) < Sub (now e) (TimeAdded c0)
       /\ r = killResultOf e c0.
Proof.
  intros Hord Hl Hcfg Hev.
  destruct (monitor_kill_event cfg e lines Hord Hl m k r Hev) as (c & Hc & Hkill & ->).
  assert (killCalls k (outputOf (monitorConnections cfg e m)) = 1%nat) as Hone.
  { rewrite (monitor_killCalls cfg e lines Hord Hl), Hc. by rewrite Hkill. }
  unfold merged in Hc. apply mergeAll_inv in Hc; [|apply parsed_active].
  unfold killRule in Hkill. apply andb_true_iff in Hkill as [Hage Hact].
  apply Z.ltb_lt in Hage.
  destruct Hc as [(c0 & Hc0 & Hin & ->) | [(c0 & Hc0 & Hin & ->) | (pre & r & post & _ & _ & _ & _ & ->)]].
  - split_and!; [done | done |]. by exists c0.
  - done.
  - exfalso. destruct r as [i ta ls act cid]. cbn in Hage. rewrite Sub_diag in Hage. lia.
Qed.

Lemma kills_only_overdue_observed_witness :
  "101" ∈ observed [lineAbc]
  /\ killCalls "101" (outputOf (monitorConnections defaultConfig (envAt 150 [lineAbc]) tableAbc)) = 1%nat
  /\ exists c0, tableAbc !! "101" = Some c0
       /\ minutes (maxActiveDurMin defaultConfig) < Sub (now (envAt 150 [lineAbc])) (TimeAdded c0)
       /\ KillRan "10.0.0.9:41234" "10.0.0.5:50090" true
          = killResultOf (envAt 150 [lineAbc]) c0.
Proof.
  apply (kills_only_overdue_observed defaultConfig (envAt 150 [lineAbc]) [lineAbc] tableAbc "101").
  - apply mapOrder_ok.
  - reflexivity.
  - vm_compute. discriminate.
  - refine (bool_decide_unpack _ _). vm_compute. exact I.
Defined.

Lemma elem_of_sweep_removing (cfg : Config) (e : Env) (now : Z) (ks : list string)
    (m : gmap string ConnectionInfo) (k : string) (connID : string) :
  EvRemoving k connID ∈ concat ((fun k' => sweepOutput cfg e now k' (m !! k')) <$> ks)
  <-> k ∈ ks /\ exists c, m !! k = Some c /\ killRule cfg now c = false
                          /\ expiryRule cfg now c = true /\ connID = ConnectionID c.
Proof.
  rewrite elem_of_concat. split.
  - intros (out & Hin & Hout). apply list_elem_of_fmap in Hout as (k' & -> & Hk').
    destruct (m !! k') as [c|] eqn:Hc; [|by apply elem_of_nil in Hin].
    cbn in Hin. destruct (killRule cfg now c) eqn:Hkill.
    + apply elem_of_cons in Hin as [? | Hin]; [done |].
      by apply list_elem_of_singleton in Hin.
    + destruct (expiryRule cfg now c) eqn:Hexp; [|by apply elem_of_nil in Hin].
      apply list_elem_of_singleton in Hin. injection Hin as -> ->.
      split; [done |]. by exists c.
  - intros (Hk & c & Hc & Hkill & Hexp & ->).
    exists (sweepOutput cfg e now k (m !! k)). split.
    + rewrite Hc. cbn. rewrite Hkill, Hexp. by apply list_elem_of_singleton.
    + apply list_elem_of_fmap. by exists k.
Qed.

(** X8. The kill rule comes first.  A cycle logs the removal of an inode
    for inactivity exactly when the merged entry meets the expiry rule and
    not the kill rule; such an entry is evicted without a call of
    [killConnection].  An entry that meets both rules is killed, not
    removed as inactive. *)
Theorem removal_iff_expired_not_killed (cfg : Config) (e : Env) (lines : list string)
    (m : gmap string ConnectionInfo) (k connID : string) :
  rangeOk e -> ssLines e = Some lines ->
  (EvRemoving k connID ∈ outputOf (monitorConnections cfg e m)
   <-> exists c, merged e lines m !! k = Some c /\ killRule cfg (now e) c = false
                 /\ expiryRule cfg (now e) c = true /\ connID = ConnectionID c)
  /\ (EvRemoving k connID ∈ outputOf (monitorConnections cfg e m) ->
      killCalls k (outputOf (monitorConnections cfg e m)) = 0%nat
      /\ tableOf (monitorConnections cfg e m) !! k = None).
Proof.
  intros Hord Hl.
  assert (EvRemoving k connID ∈ outputOf (monitorConnections cfg e m)
          <-> exists c, merged e lines m !! k = Some c /\ killRule cfg (now e) c = false
                 /\ expiryRule cfg (now e) c = true /\ connID = ConnectionID c) as Hiff.
  { rewrite (monitor_output cfg e lines m Hl), !elem_of_app.
    rewrite (sweepAll_output cfg e (now e) Hord), elem_of_sweep_removing.
    rewrite (rangeOrder_elem_of e Hord). split.
    - intros [H | [H | [H | [H | H]]]].
      + by apply list_elem_of_singleton in H.
      + by apply lineOutput_elem in H as [? ?].
      + by apply mergeAll_output_elem in H as (? & ? & ?).
      + tauto.
      + by apply list_elem_of_singleton in H.
    - intros (c & Hc & H). right; right; right; left. split; [by exists c | by exists c]. }
  split; [done |]. intros (c & Hc & Hkill & Hexp & _)%Hiff. split.
  - rewrite (monitor_killCalls cfg e lines Hord Hl), Hc. by rewrite Hkill.
  - rewrite (monitor_lookup cfg e lines Hord Hl), Hc. cbn. unfold keep.
    by rewrite Hkill, Hexp.
Qed.

Lemma removal_iff_expired_not_killed_witness :
  (EvRemoving "101" idAbc ∈ outputOf (monitorConnections defaultConfig (envAt 90 [lineXyz]) tableAbc)
   <-> exists c, merged (envAt 90 [lineXyz]) [lineXyz] tableAbc !! "101" = Some c
                 /\ killRule defaultConfig (now (envAt 90 [lineXyz])) c = false
                 /\ expiryRule defaultConfig (now (envAt 90 [lineXyz])) c = true
                 /\ idAbc = ConnectionID c)
  /\ (EvRemoving "101" idAbc ∈ outputOf (monitorConnections defaultConfig (envAt 90 [lineXyz]) tableAbc) ->
      killCalls "101" (outputOf (monitorConnections defaultConfig (envAt 90 [lineXyz]) tableAbc)) = 0%nat
      /\ tableOf (monitorConnections defaultConfig (envAt 90 [lineXyz]) tableAbc) !! "101" = None).
Proof.
  apply (removal_iff_expired_not_killed defaultConfig (envAt 90 [lineXyz]) [lineXyz] tableAbc).
  - apply mapOrder_ok.
  - reflexivity.
Defined.

(** X9. The outcome of a cycle does not depend on the order in which
    [range] walks the map nor on what [ss --kill] returns: two cycles with
    the same snapshot and clock leave the same table and call
    [killConnection] for the same inodes. *)
Theorem cycle_independent_of_order_and_kill (cfg : Config) (e1 e2 : Env)
    (m : gmap string ConnectionInfo) :
  rangeOk e1 -> rangeOk e2 ->
  ssLines e1 = ssLines e2 -> now e1 = now e2 ->
  tableOf (monitorConnections cfg e1 m) = tableOf (monitorConnections cfg e2 m)
  /\ forall k, killCalls k (outputOf (monitorConnections cfg e1 m))
               = killCalls k (outputOf (monitorConnections cfg e2 m)).
Proof.
  intros H1 H2 Hl Hnow. destruct (ssLines e1) as [lines|] eqn:Hl1; symmetry in Hl.
  - assert (merged e1 lines m = merged e2 lines m) as Hm
      by (unfold merged; by rewrite Hnow).
    split.
    + apply map_eq. intros k.
      rewrite (monitor_lookup cfg e1 lines H1 Hl1), (monitor_lookup cfg e2 lines H2 Hl).
      by rewrite Hm, Hnow.
    + intros k.
      rewrite (monitor_killCalls cfg e1 lines H1 Hl1), (monitor_killCalls cfg e2 lines H2 Hl).
      by rewrite Hm, Hnow.
  - by rewrite (monitor_failed cfg e1 m Hl1), (monitor_failed cfg e2 m Hl).
Qed.

(** The keys in reverse order: another order in which [range] may walk. *)
Lemma reverse_order_ok (o : option string) (t : Z) (kill : string -> string -> bool) :
  rangeOk (mkEnv o t (fun m => reverse (mapOrder m)) kill).
Proof. intros m. cbn. unfold mapOrder. by rewrite reverse_Permutation. Defined.

Lemma cycle_independent_of_order_and_kill_witness :
  tableOf (monitorConnections defaultConfig (envAt 150 [lineAbc; lineXyz]) tableAbc)
  = tableOf (monitorConnections defaultConfig
               (mkEnv (Some (unlines [lineAbc; lineXyz])) (150 * Minute)
                  (fun m => reverse (mapOrder m)) (fun _ _ => false)) tableAbc)
  /\ forall k,
       killCalls k (outputOf (monitorConnections defaultConfig (envAt 150 [lineAbc; lineXyz]) tableAbc))
       = killCalls k (outputOf (monitorConnections defaultConfig
                        (mkEnv (Some (unlines [lineAbc; lineXyz])) (150 * Minute)
                           (fun m => reverse (mapOrder m)) (fun _ _ => false)) tableAbc)).
Proof.
  apply (cycle_independent_of_order_and_kill defaultConfig (envAt 150 [lineAbc; lineXyz])
           (mkEnv (Some (unlines [lineAbc; lineXyz])) (150 * Minute)
              (fun m => reverse (mapOrder m)) (fun _ _ => false)) tableAbc).
  - apply mapOrder_ok.
  - apply reverse_order_ok.
  - reflexivity.
  - reflexivity.
Defined.

(** X10. The merge tracks exactly the inodes tracked before together with
    the inodes of the snapshot, and the sweep only removes: a cycle never
    tracks an inode that was neither tracked nor observed. *)
Theorem tracked_after_cycle (cfg : Config) (e : Env) (lines : list string)
    (m : gmap string ConnectionInfo) :
  rangeOk e -> ssLines e = Some lines ->
  dom (merged e lines m) = dom m ∪ list_to_set (observed lines)
  /\ dom (tableOf (monitorConnections cfg e m)) ⊆ dom m ∪ list_to_set (observed lines).
Proof.
  intros Hord Hl.
  assert (dom (merged e lines m) = dom m ∪ list_to_set (observed lines)) as Hdom.
  { apply set_eq. intros k.
    rewrite elem_of_union, !elem_of_dom, elem_of_list_to_set. unfold merged, observed.
    destruct (m !! k) as [c|] eqn:Hk;
      destruct (decide (k ∈ Inode <$> parsed lines)) as [Hin | Hin].
    - rewrite (mergeAll_tracked_seen _ _ _ _ _ Hk Hin). split; [by left | done].
    - rewrite (mergeAll_tracked_unseen _ _ _ _ _ Hk Hin). split; [by left | done].
    - destruct (first_record _ _ Hin) as (pre & r & post & HL & <- & Hpre).
      assert (r ∈ parsed lines) as Hr by (rewrite HL; apply elem_of_app; right; by left).
      apply parsed_spec in Hr as [Hact _].
      rewrite HL at 1. rewrite (mergeAll_new _ pre r post m Hk Hpre Hact).
      split; [by right | done].
    - rewrite (mergeAll_absent _ _ _ _ Hk Hin).
      split; [by intros [? ?] | intros [[? ?] | ?]; done]. }
  split; [done |]. rewrite <- Hdom. intros k. rewrite !elem_of_dom.
  rewrite (monitor_lookup cfg e lines Hord Hl). intros [c Hc].
  apply keep_Some in Hc as [Hc _]. by exists c.
Qed.

Lemma tracked_after_cycle_witness :
  dom (merged (envAt 30 [lineXyz; lineShort]) [lineXyz; lineShort] tableAbc)
  = dom tableAbc ∪ list_to_set (observed [lineXyz; lineShort])
  /\ dom (tableOf (monitorConnections defaultConfig (envAt 30 [lineXyz; lineShort]) tableAbc))
     ⊆ dom tableAbc ∪ list_to_set (observed [lineXyz; lineShort]).
Proof.
  apply (tracked_after_cycle defaultConfig (envAt 30 [lineXyz; lineShort])
           [lineXyz; lineShort] tableAbc).
  - apply mapOrder_ok.
  - reflexivity.
Defined.

(** X11. Whatever the cycle (listed or failed), an entry that is tracked
    before and after it keeps its inode, its connection ID and its
    first-seen time; its last-seen either stays or becomes the cycle's
    now. *)
Theorem surviving_entry_identity (cfg : Config) (e : Env) (m : gmap string ConnectionInfo)
    (k : string) (c c' : ConnectionInfo) :
  rangeOk e ->
  m !! k = Some c ->
  tableOf (monitorConnections cfg e m) !! k = Some c' ->
  Inode c' = Inode c /\ ConnectionID c' = ConnectionID c
  /\ TimeAdded c' = TimeAdded c
  /\ (LastSeen c' = LastSeen c \/ LastSeen c' = now e).
Proof.
  intros Hord Hc Hc'. destruct (ssLines e) as [lines|] eqn:Hl.
  - rewrite (monitor_lookup cfg e lines Hord Hl) in Hc'.
    apply keep_Some in Hc' as [Hc' _]. unfold merged in Hc'.
    destruct (decide (k ∈ Inode <$> parsed lines)) as [Hin | Hin].
    + rewrite (mergeAll_tracked_seen _ _ _ _ _ Hc Hin) in Hc'.
      injection Hc' as <-. cbn. tauto.
    + rewrite (mergeAll_tracked_unseen _ _ _ _ _ Hc Hin) in Hc'.
      injection Hc' as <-. cbn. tauto.
  - rewrite (monitor_failed cfg e m Hl) in Hc'. cbn in Hc'.
    rewrite Hc in Hc'. injection Hc' as <-. tauto.
Qed.

Lemma surviving_entry_identity_witness :
  let c' := mkConn "101" 0 (30 * Minute) true idAbc in
  Inode c' = "101" /\ ConnectionID c' = idAbc /\ TimeAdded c' = 0
  /\ (LastSeen c' = 0 \/ LastSeen c' = now (envAt 30 [lineAbcDup])).
Proof.
  apply (surviving_entry_identity defaultConfig (envAt 30 [lineAbcDup]) tableAbc "101"
           (mkConn "101" 0 0 true idAbc)).
  - apply mapOrder_ok.
  - vm_compute. reflexivity.
  - vm_compute. reflexivity.
Defined.

Lemma newTracked_app (k : string) (o1 o2 : list Event) :
  newTracked k (o1 ++ o2) = (newTracked k o1 + newTracked k o2)%nat.
Proof.
  induction o1 as [|ev o1 IH]; [done |].
  destruct ev; cbn [app newTracked]; rewrite IH; lia.
Qed.

Lemma newTracked_none (k : string) (out : list Event) :
  (forall i c, EvNewTracked i c ∉ out) -> newTracked k out = 0%nat.
Proof.
  induction out as [|ev out IH]; intros H; [done |].
  assert (forall i c, EvNewTracked i c ∉ out) as Hout.
  { intros i c Hin. apply (H i c). by right. }
  destruct ev as [| | |i c| | | |]; cbn [newTracked]; try by apply IH.
  exfalso. apply (H i c). by left.
Qed.

Lemma newTracked_forEach_merge (k : string) (now : Z) (L : list ConnectionInfo) :
  forall m : gmap string ConnectionInfo,
    newTracked k (outputOf (forEach (mergeConn now) L m))
    = if decide (m !! k = None /\ k ∈ Inode <$> L) then 1%nat else 0%nat.
Proof.
  induction L as [|r L IH]; intros m.
  - cbn. case_decide as H; [|done]. destruct H as [_ H]. by apply elem_of_nil in H.
  - rewrite forEach_cons_output, newTracked_app, IH, fmap_cons.
    destruct (decide (Inode r = k)) as [<- | Hne].
    + rewrite mergeConn_table. unfold mergeConn, bind, getTable.
      destruct (m !! Inode r) as [c|] eqn:Hk; cbn.
      * rewrite lookup_insert_eq. rewrite !decide_False; [done | | ]; by intros [? _].
      * rewrite lookup_insert_eq, bool_decide_eq_true_2 by done.
        rewrite decide_False by (by intros [? _]).
        rewrite decide_True; [done |]. split; [done | by left].
    + rewrite (mergeConn_other _ _ _ _ Hne).
      assert (newTracked k (outputOf (mergeConn now r m)) = 0%nat) as ->.
      { unfold mergeConn, bind, getTable. destruct (m !! Inode r); cbn; [done |].
        by rewrite bool_decide_eq_false_2. }
      cbn [Nat.add]. apply decide_ext. rewrite elem_of_cons.
      split; [tauto | intros [? [? | ?]]; [congruence | tauto]].
Qed.

Lemma monitor_newTracked (cfg : Config) (e : Env) (lines : list string)
    (m : gmap string ConnectionInfo) (k : string) :
  rangeOk e -> ssLines e = Some lines ->
  newTracked k (outputOf (monitorConnections cfg e m))
  = if decide (m !! k = None /\ k ∈ observed lines) then 1%nat else 0%nat.
Proof.
  intros Hord Hl.
  rewrite (monitor_output cfg e lines m Hl), !newTracked_app.
  rewrite (newTracked_none k (concat (lineOutput <$> lines))).
  2:{ intros i c H. by apply lineOutput_elem in H as [? ?]. }
  rewrite (newTracked_none k (outputOf (sweepAll _ _ _ _))).
  2:{ intros i c H. rewrite (sweepAll_output cfg e (now e) Hord) in H.
      apply elem_of_concat in H as (out & Hin & Hout).
      apply list_elem_of_fmap in Hout as (k' & -> & _).
      destruct (merged e lines m !! k') as [c0|]; [|by apply elem_of_nil in Hin].
      cbn in Hin. destruct (killRule cfg (now e) c0).
      - apply elem_of_cons in Hin as [? | Hin]; [done |].
        by apply list_elem_of_singleton in Hin.
      - destruct (expiryRule cfg (now e) c0).
        + by apply list_elem_of_singleton in Hin.
        + by apply elem_of_nil in Hin. }
  unfold mergeAll. rewrite bind_output, markAllInactive_output, markAllInactive_table.
  cbn [app newTracked]. rewrite newTracked_forEach_merge, lookup_fmap.
  rewrite !Nat.add_0_r. unfold observed. apply decide_ext.
  destruct (m !! k); cbn; split; intros [? ?]; done.
Qed.

(** X12. A cycle prints " + New connection tracked" once for each inode of
    the snapshot that was not tracked before, however many records carry
    it, and for no other inode. *)
Theorem new_tracked_logged_once (cfg : Config) (e : Env) (lines : list string)
    (m : gmap string ConnectionInfo) (k : string) :
  rangeOk e -> ssLines e = Some lines ->
  (m !! k = None -> k ∈ observed lines ->
   newTracked k (outputOf (monitorConnections cfg e m)) = 1%nat)
  /\ (is_Some (m !! k) \/ k ∉ observed lines ->
      newTracked k (outputOf (monitorConnections cfg e m)) = 0%nat).
Proof.
  intros Hord Hl. rewrite (monitor_newTracked cfg e lines m k Hord Hl). split.
  - intros H1 H2. by rewrite decide_True.
  - intros H. rewrite decide_False; [done |]. intros [H1 H2].
    destruct H as [[c Hc] | H]; [congruence | done].
Qed.

Lemma new_tracked_logged_once_witness :
  ((∅ : gmap string ConnectionInfo) !! "101" = None ->
   "101" ∈ observed [lineAbc; lineAbcDup; lineAbc] ->
   newTracked "101"
     (outputOf (monitorConnections defaultConfig (envAt 0 [lineAbc; lineAbcDup; lineAbc]) ∅))
   = 1%nat)
  /\ (is_Some ((∅ : gmap string ConnectionInfo) !! "101")
      \/ "101" ∉ observed [lineAbc; lineAbcDup; lineAbc] ->
      newTracked "101"
        (outputOf (monitorConnections defaultConfig (envAt 0 [lineAbc; lineAbcDup; lineAbc]) ∅))
      = 0%nat).
Proof.
  apply (new_tracked_logged_once defaultConfig (envAt 0 [lineAbc; lineAbcDup; lineAbc])
           [lineAbc; lineAbcDup; lineAbc] ∅ "101").
  - apply mapOrder_ok.
  - reflexivity.
Defined.

(** X13. A cycle whose snapshot yields no record (an empty listing, or only
    lines that are skipped or dropped) calls [killConnection] for nothing
    and tracks nothing new: it marks every entry inactive and removes the
    ones that the expiry rule selects. *)
Theorem empty_snapshot_cycle (cfg : Config) (e : Env) (lines : list string)
    (m : gmap string ConnectionInfo) :
  rangeOk e -> ssLines e = Some lines -> parsed lines = [] ->
  forall k,
    tableOf (monitorConnections cfg e m) !! k
    = m !! k ≫= (fun c => if expiryRule cfg (now e) c then None
                           else Some (setIsActive false c))
    /\ killCalls k (outputOf (monitorConnections cfg e m)) = 0%nat
    /\ newTracked k (outputOf (monitorConnections cfg e m)) = 0%nat.
Proof.
  intros Hord Hl Hnil k.
  assert (k ∉ observed lines) as Hin.
  { unfold observed. rewrite Hnil. apply not_elem_of_nil. }
  assert (merged e lines m !! k = setIsActive false <$> m !! k) as Hm.
  { unfold merged. destruct (m !! k) as [c|] eqn:Hk.
    - by rewrite (mergeAll_tracked_unseen _ _ _ _ _ Hk Hin).
    - by rewrite (mergeAll_absent _ _ _ _ Hk Hin). }
  split_and!.
  - rewrite (monitor_lookup cfg e lines Hord Hl), Hm.
    destruct (m !! k) as [c|]; [|done]. cbn. unfold keep, killRule.
    cbn [IsActive setIsActive]. by rewrite andb_false_r.
  - rewrite (monitor_killCalls cfg e lines Hord Hl), Hm.
    destruct (m !! k) as [c|]; [|done]. cbn. unfold killRule.
    cbn [IsActive setIsActive]. by rewrite andb_false_r.
  - rewrite (monitor_newTracked cfg e lines m k Hord Hl).
    rewrite decide_False; [done |]. by intros [_ ?].
Qed.

Lemma empty_snapshot_cycle_witness :
  tableOf (monitorConnections defaultConfig (envAt 90 [lineShort; lineNoInode]) tableAbc) !! "101"
  = tableAbc !! "101"
      ≫= (fun c => if expiryRule defaultConfig (now (envAt 90 [lineShort; lineNoInode])) c
                   then None else Some (setIsActive false c))
  /\ killCalls "101"
       (outputOf (monitorConnections defaultConfig (envAt 90 [lineShort; lineNoInode]) tableAbc))
     = 0%nat
  /\ newTracked "101"
       (outputOf (monitorConnections defaultConfig (envAt 90 [lineShort; lineNoInode]) tableAbc))
     = 0%nat.
Proof.
  apply (empty_snapshot_cycle defaultConfig (envAt 90 [lineShort; lineNoInode])
           [lineShort; lineNoInode] tableAbc).
  - apply mapOrder_ok.
  - reflexivity.
  - vm_compute. reflexivity.
Defined.

(** ** Flags that are not validated *)

(** X14. The flags are not checked.  When max-active gives a negative
    duration (a negative flag, or one above 153722867 whose product
    overflows), every inode of a snapshot is killed and evicted in that
    same cycle, from its first observation on. *)
Theorem negative_max_active_kills_on_sight (cfg : Config) (t : Z)
    (m : gmap string ConnectionInfo) (e : Env) (lines : list string) (k : string) :
  reachable cfg t m -> t <= now e -> rangeOk e -> ssLines e = Some lines ->
  minutes (maxActiveDurMin cfg) < 0 ->
  k ∈ observed lines ->
  killCalls k (outputOf (monitorConnections cfg e m)) = 1%nat
  /\ tableOf (monitorConnections cfg e m) !! k = None.
Proof.
  intros Hr Ht Hord Hl Hneg Hin.
  assert (exists c, merged e lines m !! k = Some c /\ killRule cfg (now e) c = true)
    as (c & Hc & Hkill).
  { destruct (m !! k) as [c0|] eqn:Hk.
    - eexists. split; [unfold merged; by apply mergeAll_tracked_seen |].
      destruct (reachable_ok cfg t m Hr k c0 Hk) as (_ & H1 & H2 & _).
      unfold killRule. cbn [TimeAdded IsActive]. rewrite andb_true_r.
      apply Z.ltb_lt. pose proof (Sub_nonneg (now e) (TimeAdded c0)). lia.
    - destruct (monitor_new cfg e lines Hord Hl m k Hk Hin) as (r & Hr' & _ & Hm & _).
      exists (fresh (now e) r). split; [done |].
      apply parsed_spec in Hr' as [Hact _].
      unfold killRule. destruct r as [i ta ls act cid]. cbn in *. subst act.
      rewrite Sub_diag, andb_true_r. by apply Z.ltb_lt. }
  split.
  - rewrite (monitor_killCalls cfg e lines Hord Hl), Hc. by rewrite Hkill.
  - rewrite (monitor_lookup cfg e lines Hord Hl), Hc. cbn. unfold keep.
    by rewrite Hkill.
Qed.

Lemma negative_max_active_kills_on_sight_witness :
  killCalls "101"
    (outputOf (monitorConnections (mkConfig "50090" 30 153722868 60) (envAt 0 [lineAbc]) ∅)) = 1%nat
  /\ tableOf (monitorConnections (mkConfig "50090" 30 153722868 60) (envAt 0 [lineAbc]) ∅)
       !! "101" = None.
Proof.
  apply (negative_max_active_kills_on_sight (mkConfig "50090" 30 153722868 60) 0 ∅
           (envAt 0 [lineAbc]) [lineAbc] "101").
  - apply reachable_start.
  - vm_compute. discriminate.
  - apply mapOrder_ok.
  - reflexivity.
  - vm_compute. reflexivity.
  - refine (bool_decide_unpack _ _). vm_compute. exact I.
Defined.

(** X15. When max-inactive gives a negative duration, nothing stays
    tracked: in a run of the program the table is empty after every cycle
    whose snapshot was listed. *)
Theorem negative_max_inactive_tracks_nothing (cfg : Config) (t : Z)
    (m : gmap string ConnectionInfo) (e : Env) (lines : list string) :
  reachable cfg t m -> t <= now e -> rangeOk e -> ssLines e = Some lines ->
  minutes (maxInactiveDurMin cfg) < 0 ->
  tableOf (monitorConnections cfg e m) = ∅.
Proof.
  intros Hr Ht Hord Hl Hneg. apply map_eq. intros k.
  rewrite lookup_empty, (monitor_lookup cfg e lines Hord Hl).
  destruct (merged e lines m !! k) as [c|] eqn:Hc; [|done].
  destruct (merged_ok e lines t m (reachable_ok cfg t m Hr) Ht k c Hc) as (_ & _ & Hls & _).
  cbn. unfold keep.
  assert (expiryRule cfg (now e) c = true) as ->; [|by rewrite orb_true_r].
  apply Z.ltb_lt. pose proof (Sub_nonneg (now e) (LastSeen c) Hls). lia.
Qed.

Lemma negative_max_inactive_tracks_nothing_witness :
  tableOf (monitorConnections (mkConfig "50090" 30 120 (-1)) (envAt 30 [lineAbc; lineXyz]) ∅) = ∅.
Proof.
  apply (negative_max_inactive_tracks_nothing (mkConfig "50090" 30 120 (-1)) 0 ∅
           (envAt 30 [lineAbc; lineXyz]) [lineAbc; lineXyz]).
  - apply reachable_start.
  - vm_compute. discriminate.
  - apply mapOrder_ok.
  - reflexivity.
  - vm_compute. reflexivity.
Defined.

(** ** Runs of several cycles *)

Lemma runCycles_app_table (cfg : Config) (l1 l2 : list Env) :
  forall m : gmap string ConnectionInfo,
    tableOf (runCycles cfg (l1 ++ l2) m)
    = tableOf (runCycles cfg l2 (tableOf (runCycles cfg l1 m))).
Proof.
  induction l1 as [|e l1 IH]; intros m; [done |].
  cbn [app runCycles]. by rewrite !bind_table, IH.
Qed.

Lemma runCycles_app_output (cfg : Config) (l1 l2 : list Env) :
  forall m : gmap string ConnectionInfo,
    outputOf (runCycles cfg (l1 ++ l2) m)
    = outputOf (runCycles cfg l1 m)
      ++ outputOf (runCycles cfg l2 (tableOf (runCycles cfg l1 m))).
Proof.
  induction l1 as [|e l1 IH]; intros m; [done |].
  cbn [app runCycles]. by rewrite !bind_output, !bind_table, IH, app_assoc.
Qed.

Lemma runCycles_one (cfg : Config) (e : Env) (m : gmap string ConnectionInfo) :
  tableOf (runCycles cfg [e] m) = tableOf (monitorConnections cfg e m)
  /\ outputOf (runCycles cfg [e] m) = outputOf (monitorConnections cfg e m).
Proof.
  cbn [runCycles]. rewrite bind_table, bind_output. cbn. by rewrite app_nil_r.
Qed.

(** Cycles that observe a young entry keep it, with no call for it. *)
Lemma run_seen_young (cfg : Config) (k : string) (envs : list Env) :
  forall (m : gmap string ConnectionInfo) (c : ConnectionInfo),
    0 <= minutes (maxInactiveDurMin cfg) ->
    m !! k = Some c ->
    Forall (fun e => rangeOk e /\ observes e k
                     /\ Sub (now e) (TimeAdded c) <= minutes (maxActiveDurMin cfg)) envs ->
    (exists c', tableOf (runCycles cfg envs m) !! k = Some c'
                /\ Inode c' = Inode c /\ ConnectionID c' = ConnectionID c
                /\ TimeAdded c' = TimeAdded c)
    /\ killCalls k (outputOf (runCycles cfg envs m)) = 0%nat.
Proof.
  induction envs as [|e envs IH]; intros m c Hcfg Hc Hall.
  - split; [by exists c | done].
  - apply Forall_cons in Hall as [(Hord & (lines & Hl & Hin) & Hage) Hall].
    set (c1 := mkConn (Inode c) (TimeAdded c) (now e) true (ConnectionID c)).
    assert (tableOf (monitorConnections cfg e m) !! k = Some c1) as Hc1.
    { rewrite (monitor_seen cfg e lines Hord Hl m k c Hc Hin). fold c1.
      unfold keep, killRule, expiryRule. cbn [TimeAdded LastSeen IsActive c1].
      rewrite Sub_diag.
      rewrite (proj2 (Z.ltb_ge _ _) Hage), (proj2 (Z.ltb_ge _ _) Hcfg). done. }
    assert (killCalls k (outputOf (monitorConnections cfg e m)) = 0%nat) as Hk1.
    { rewrite (monitor_killCalls cfg e lines Hord Hl). unfold merged.
      rewrite (mergeAll_tracked_seen _ _ _ _ _ Hc Hin). unfold killRule.
      cbn [TimeAdded IsActive]. by rewrite (proj2 (Z.ltb_ge _ _) Hage). }
    destruct (IH (tableOf (monitorConnections cfg e m)) c1 Hcfg Hc1 Hall)
      as [(c' & Hc' & H1 & H2 & H3) Hk].
    cbn [runCycles]. rewrite bind_table, bind_output, killCalls_app, Hk1, Hk.
    split; [by exists c' | done].
Qed.

(** X16. In a run, an entry that is observed in every cycle is kept, with
    the first-seen time it had, through all the cycles in which its age
    does not exceed max-active (max-inactive not being negative); the first
    cycle in which it does calls [killConnection] for it and evicts it, and
    that is the only call for this inode in the whole run. *)
Theorem continuously_seen_killed_once (cfg : Config) (k : string) (envs : list Env)
    (e' : Env) (m : gmap string ConnectionInfo) (c : ConnectionInfo) :
  0 <= minutes (maxInactiveDurMin cfg) ->
  m !! k = Some c ->
  Forall (fun e => rangeOk e /\ observes e k
                   /\ Sub (now e) (TimeAdded c) <= minutes (maxActiveDurMin cfg)) envs ->
  rangeOk e' -> observes e' k ->
  minutes (maxActiveDurMin cfg) < Sub (now e') (TimeAdded c) ->
  (exists c', tableOf (runCycles cfg envs m) !! k = Some c'
              /\ TimeAdded c' = TimeAdded c /\ ConnectionID c' = ConnectionID c)
  /\ tableOf (runCycles cfg (envs ++ [e']) m) !! k = None
  /\ killCalls k (outputOf (runCycles cfg (envs ++ [e']) m)) = 1%nat.
Proof.
  intros Hcfg Hc Hall Hord (lines & Hl & Hin) Hage.
  destruct (run_seen_young cfg k envs m c Hcfg Hc Hall) as [(c' & Hc' & H1 & H2 & H3) Hk].
  assert (merged e' lines (tableOf (runCycles cfg envs m)) !! k
          = Some (mkConn (Inode c') (TimeAdded c') (now e') true (ConnectionID c'))) as Hm.
  { unfold merged. by apply mergeAll_tracked_seen. }
  assert (killRule cfg (now e') (mkConn (Inode c') (TimeAdded c') (now e') true (ConnectionID c'))
          = true) as Hkill.
  { unfold killRule. cbn [TimeAdded IsActive]. rewrite H3, andb_true_r. by apply Z.ltb_lt. }
  split_and!.
  - by exists c'.
  - rewrite runCycles_app_table. destruct (runCycles_one cfg e' (tableOf (runCycles cfg envs m))) as [-> _].
    rewrite (monitor_lookup cfg e' lines Hord Hl), Hm. cbn. unfold keep. by rewrite Hkill.
  - rewrite runCycles_app_output, killCalls_app, Hk.
    destruct (runCycles_one cfg e' (tableOf (runCycles cfg envs m))) as [_ ->].
    rewrite (monitor_killCalls cfg e' lines Hord Hl), Hm. by rewrite Hkill.
Qed.

Lemma observes_envAt (t : Z) (lines : list string) (k : string) :
  Scan (unlines lines) = lines -> k ∈ observed lines -> observes (envAt t lines) k.
Proof. intros Hs H. exists lines. split; [by apply ssLines_envAt | done]. Defined.

Lemma misses_envAt (t : Z) (lines : list string) (k : string) :
  Scan (unlines lines) = lines -> k ∉ observed lines -> misses (envAt t lines) k.
Proof. intros Hs H. exists lines. split; [by apply ssLines_envAt | done]. Defined.

Lemma observed_lineAbc : "101" ∈ observed [lineAbc; lineNoInode].
Proof. refine (bool_decide_unpack _ _). vm_compute. exact I. Defined.

Lemma unobserved_lineXyz : "101" ∉ observed [lineXyz; lineShort].
Proof. refine (bool_decide_unpack _ _). vm_compute. exact I. Defined.

Lemma continuously_seen_killed_once_witness :
  (exists c',
     tableOf (runCycles defaultConfig
                [envAt 45 [lineAbc; lineNoInode]; envAt 120 [lineAbc; lineNoInode]] tableAbc)
       !! "101" = Some c'
     /\ TimeAdded c' = 0 /\ ConnectionID c' = idAbc)
  /\ tableOf (runCycles defaultConfig
                ([envAt 45 [lineAbc; lineNoInode]; envAt 120 [lineAbc; lineNoInode]]
                 ++ [envAt 121 [lineAbc; lineNoInode]]) tableAbc) !! "101" = None
  /\ killCalls "101"
       (outputOf (runCycles defaultConfig
                    ([envAt 45 [lineAbc; lineNoInode]; envAt 120 [lineAbc; lineNoInode]]
                     ++ [envAt 121 [lineAbc; lineNoInode]]) tableAbc)) = 1%nat.
Proof.
  apply (continuously_seen_killed_once defaultConfig "101"
           [envAt 45 [lineAbc; lineNoInode]; envAt 120 [lineAbc; lineNoInode]]
           (envAt 121 [lineAbc; lineNoInode]) tableAbc (mkConn "101" 0 0 true idAbc)).
  - vm_compute. discriminate.
  - vm_compute. reflexivity.
  - repeat constructor; try apply mapOrder_ok; try (apply observes_envAt; [vm_compute; reflexivity | apply observed_lineAbc]);
      vm_compute; discriminate.
  - apply mapOrder_ok.
  - apply observes_envAt; [vm_compute; reflexivity | apply observed_lineAbc].
  - vm_compute. reflexivity.
Defined.

(** Cycles that miss an entry not yet expired keep it, with no call. *)
Lemma run_missed_fresh (cfg : Config) (k : string) (envs : list Env) :
  forall (m : gmap string ConnectionInfo) (c : ConnectionInfo),
    m !! k = Some c ->
    Forall (fun e => rangeOk e /\ misses e k
                     /\ Sub (now e) (LastSeen c) <= minutes (maxInactiveDurMin cfg)) envs ->
    (exists c', tableOf (runCycles cfg envs m) !! k = Some c'
                /\ Inode c' = Inode c /\ ConnectionID c' = ConnectionID c
                /\ TimeAdded c' = TimeAdded c /\ LastSeen c' = LastSeen c
                /\ (envs <> [] -> IsActive c' = false))
    /\ killCalls k (outputOf (runCycles cfg envs m)) = 0%nat.
Proof.
  induction envs as [|e envs IH]; intros m c Hc Hall.
  - split; [by exists c | done].
  - apply Forall_cons in Hall as [(Hord & (lines & Hl & Hin) & Hage) Hall].
    assert (tableOf (monitorConnections cfg e m) !! k = Some (setIsActive false c)) as Hc1.
    { rewrite (monitor_unseen cfg e lines Hord Hl m k c Hc Hin).
      unfold keep, killRule, expiryRule. cbn [TimeAdded LastSeen IsActive setIsActive].
      rewrite andb_false_r. by rewrite (proj2 (Z.ltb_ge _ _) Hage). }
    assert (killCalls k (outputOf (monitorConnections cfg e m)) = 0%nat) as Hk1.
    { rewrite (monitor_killCalls cfg e lines Hord Hl). unfold merged.
      rewrite (mergeAll_tracked_unseen _ _ _ _ _ Hc Hin). unfold killRule.
      cbn [IsActive setIsActive]. by rewrite andb_false_r. }
    destruct (IH (tableOf (monitorConnections cfg e m)) (setIsActive false c) Hc1 Hall)
      as [(c' & Hc' & H1 & H2 & H3 & H4 & H5) Hk].
    cbn [runCycles]. rewrite bind_table, bind_output, killCalls_app, Hk1, Hk.
    split; [|done]. exists c'. split_and!; try done.
    intros _. destruct envs as [|e2 envs]; [|by apply H5].
    change (tableOf (monitorConnections cfg e m) !! k = Some c') in Hc'.
    rewrite Hc1 in Hc'. by injection Hc' as <-.
Qed.

(** X17. In a run, an entry that is in none of the snapshots is kept
    unchanged but inactive through all the cycles in which now - last-seen
    does not exceed max-inactive; the first cycle in which it does removes
    it, and [killConnection] is never called for it. *)
Theorem unobserved_entry_expires (cfg : Config) (k : string) (envs : list Env)
    (e' : Env) (m : gmap string ConnectionInfo) (c : ConnectionInfo) :
  m !! k = Some c ->
  Forall (fun e => rangeOk e /\ misses e k
                   /\ Sub (now e) (LastSeen c) <= minutes (maxInactiveDurMin cfg)) envs ->
  rangeOk e' -> misses e' k ->
  minutes (maxInactiveDurMin cfg) < Sub (now e') (LastSeen c) ->
  (exists c', tableOf (runCycles cfg envs m) !! k = Some c'
              /\ Inode c' = Inode c /\ ConnectionID c' = ConnectionID c
              /\ TimeAdded c' = TimeAdded c /\ LastSeen c' = LastSeen c
              /\ (envs <> [] -> IsActive c' = false))
  /\ tableOf (runCycles cfg (envs ++ [e']) m) !! k = None
  /\ killCalls k (outputOf (runCycles cfg (envs ++ [e']) m)) = 0%nat.
Proof.
  intros Hc Hall Hord (lines & Hl & Hin) Hage.
  destruct (run_missed_fresh cfg k envs m c Hc Hall)
    as [(c' & Hc' & H1 & H2 & H3 & H4 & H5) Hk].
  split_and!.
  - by exists c'.
  - rewrite runCycles_app_table.
    destruct (runCycles_one cfg e' (tableOf (runCycles cfg envs m))) as [-> _].
    rewrite (monitor_unseen cfg e' lines Hord Hl _ k c' Hc' Hin).
    unfold keep, killRule, expiryRule. cbn [TimeAdded LastSeen IsActive setIsActive].
    rewrite andb_false_r, H4. by rewrite (proj2 (Z.ltb_lt _ _) Hage).
  - rewrite runCycles_app_output, killCalls_app, Hk.
    destruct (runCycles_one cfg e' (tableOf (runCycles cfg envs m))) as [_ ->].
    rewrite (monitor_killCalls cfg e' lines Hord Hl). unfold merged.
    rewrite (mergeAll_tracked_unseen _ _ _ _ _ Hc' Hin). unfold killRule.
    cbn [IsActive setIsActive]. by rewrite andb_false_r.
Qed.

Lemma unobserved_entry_expires_witness :
  (exists c',
     tableOf (runCycles defaultConfig
                [envAt 10 [lineXyz; lineShort]; envAt 60 [lineXyz; lineShort]] tableAbc)
       !! "101" = Some c'
     /\ Inode c' = "101" /\ ConnectionID c' = idAbc
     /\ TimeAdded c' = 0 /\ LastSeen c' = 0
     /\ ([envAt 10 [lineXyz; lineShort]; envAt 60 [lineXyz; lineShort]] <> [] ->
         IsActive c' = false))
  /\ tableOf (runCycles defaultConfig
                ([envAt 10 [lineXyz; lineShort]; envAt 60 [lineXyz; lineShort]]
                 ++ [envAt 61 [lineXyz; lineShort]]) tableAbc) !! "101" = None
  /\ killCalls "101"
       (outputOf (runCycles defaultConfig
                    ([envAt 10 [lineXyz; lineShort]; envAt 60 [lineXyz; lineShort]]
                     ++ [envAt 61 [lineXyz; lineShort]]) tableAbc)) = 0%nat.
Proof.
  apply (unobserved_entry_expires defaultConfig "101"
           [envAt 10 [lineXyz; lineShort]; envAt 60 [lineXyz; lineShort]]
           (envAt 61 [lineXyz; lineShort]) tableAbc (mkConn "101" 0 0 true idAbc)).
  - vm_compute. reflexivity.
  - repeat constructor; try apply mapOrder_ok; try (apply misses_envAt; [vm_compute; reflexivity | apply unobserved_lineXyz]);
      vm_compute; discriminate.
  - apply mapOrder_ok.
  - apply misses_envAt; [vm_compute; reflexivity | apply unobserved_lineXyz].
  - vm_compute. reflexivity.
Defined.

(** ** Start-up *)

(** X18. [checkEnvironment] passes exactly on Linux with [ss] in the PATH
    and Uid "0", and reports the first check that fails, in the order OS,
    [ss], user lookup, Uid.  When it fails, the whole effect of [main] is
    the fatal error.  When it passes, [main] prints its four lines; then
    [time.NewTicker] panics if the check interval is not a positive
    duration, before any cycle; otherwise the cycles run from the empty
    table.  A cycle therefore runs only in an accepted environment with a
    positive interval. *)
Theorem main_runs_only_when_environment_ok (cfg : Config) (h : Host) (envs : list Env) :
  (checkEnvironment h = None
   <-> GOOS h = "linux" /\ ssInPath h = true /\ currentUid h = Some "0")
  /\ (GOOS h <> "linux" -> checkEnvironment h = Some (ErrNotLinux (GOOS h)))
  /\ (GOOS h = "linux" -> ssInPath h = false -> checkEnvironment h = Some ErrNoSs)
  /\ (GOOS h = "linux" -> ssInPath h = true -> currentUid h = None ->
      checkEnvironment h = Some ErrNoUser)
  /\ (forall uid, GOOS h = "linux" -> ssInPath h = true -> currentUid h = Some uid ->
        uid <> "0" -> checkEnvironment h = Some (ErrNotRoot uid))
  /\ (forall err, checkEnvironment h = Some err -> main cfg h envs = (∅, [MainFatal err]))
  /\ (checkEnvironment h = None -> minutes (checkIntervalMin cfg) <= 0 ->
      main cfg h envs = (∅, banner cfg ++ [MainTickerPanic]))
  /\ (checkEnvironment h = None -> 0 < minutes (checkIntervalMin cfg) ->
      main cfg h envs
      = (tableOf (runCycles cfg envs ∅),
         banner cfg ++ (MainCycle <$> outputOf (runCycles cfg envs ∅))))
  /\ (forall ev, MainCycle ev ∈ (main cfg h envs).2 ->
        checkEnvironment h = None /\ 0 < minutes (checkIntervalMin cfg)).
Proof.
  assert (checkEnvironment h = None
          <-> GOOS h = "linux" /\ ssInPath h = true /\ currentUid h = Some "0") as Hiff.
  { unfold checkEnvironment.
    destruct (String.eqb_spec (GOOS h) "linux") as [Hos | Hos]; cbn [negb];
      [|split; [done | by intros [? _]]].
    destruct (ssInPath h); cbn [negb]; [|split; [done | by intros (_ & ? & _)]].
    destruct (currentUid h) as [uid|]; [|split; [done | by intros (_ & _ & ?)]].
    destruct (String.eqb_spec uid "0") as [-> | Hroot]; cbn [negb]; [done |].
    split; [done |]. intros (_ & _ & [= ?]). done. }
  assert (forall ev, MainCycle ev ∉ banner cfg) as Hbanner.
  { intros ev H. unfold banner in H. repeat (apply elem_of_cons in H as [? | H]; [done |]).
    by apply elem_of_nil in H. }
  split_and!.
  - exact Hiff.
  - intros Hos. unfold checkEnvironment.
    by destruct (String.eqb_spec (GOOS h) "linux").
  - intros Hos Hss. unfold checkEnvironment. rewrite Hos, Hss. reflexivity.
  - intros Hos Hss Huid. unfold checkEnvironment. rewrite Hos, Hss, Huid. reflexivity.
  - intros uid Hos Hss Huid Hroot. unfold checkEnvironment. rewrite Hos, Hss, Huid.
    cbn. by destruct (String.eqb_spec uid "0").
  - intros err Herr. unfold main. by rewrite Herr.
  - intros Hok Hint. unfold main. rewrite Hok.
    by rewrite (proj2 (Z.leb_le _ _) Hint).
  - intros Hok Hint. unfold main. rewrite Hok.
    by rewrite (proj2 (Z.leb_gt _ _) Hint).
  - intros ev. unfold main. destruct (checkEnvironment h) as [err|] eqn:Hcheck.
    + cbn. intros H. by apply list_elem_of_singleton in H.
    + destruct (Z.leb_spec (minutes (checkIntervalMin cfg)) 0) as [Hint | Hint].
      * cbn [snd]. rewrite elem_of_app. intros [H | H]; [by apply Hbanner in H |].
        by apply list_elem_of_singleton in H.
      * done.
Qed.

Example main_ticker_panic :
  main (mkConfig "50090" 0 120 60) (mkHost "linux" true (Some "0")) [envAt 0 [lineAbc]]
  = (∅, [MainPort "50090"; MainCheckInterval 0; MainMaxActive 120; MainMaxInactive 60;
         MainTickerPanic]).
Proof. vm_compute. reflexivity. Qed.

Example main_not_root :
  main defaultConfig (mkHost "linux" true (Some "1000")) [envAt 0 [lineAbc]]
  = (∅, [MainFatal (ErrNotRoot "1000")]).
Proof. vm_compute. reflexivity. Qed.

(** ** The scanner and lines of 64 KiB or more *)

Lemma scanFrom_line (q : string) : forall (revcur : string) (n : N) (rest : string),
  noNewline q = true -> (n + lengthN q < maxScanTokenSize)%N ->
  scanFrom revcur n (q +:+ String (ascii_of_nat 10) rest)
  = dropCR (revApp revcur q) :: scanFrom "" 0 rest.
Proof.
  induction q as [|a q IH]; intros revcur n rest Hq Hlen.
  - rewrite append_empty. reflexivity.
  - cbn [noNewline] in Hq. apply andb_true_iff in Hq as [Ha Hq].
    apply negb_true_iff in Ha. cbn [lengthN] in Hlen.
    rewrite append_cons. cbn [scanFrom]. rewrite Ha.
    destruct (N.eqb_spec (n + 1) maxScanTokenSize) as [Hfull | _]; [lia |].
    rewrite IH; [done | done | lia].
Qed.

Lemma scanFrom_too_long (q : string) : forall (revcur : string) (n : N) (rest : string),
  noNewline q = true -> (n < maxScanTokenSize)%N ->
  (n + lengthN q = maxScanTokenSize)%N ->
  scanFrom revcur n (q +:+ rest) = [].
Proof.
  induction q as [|a q IH]; intros revcur n rest Hq Hn Hlen.
  - cbn [lengthN] in Hlen. lia.
  - cbn [noNewline] in Hq. apply andb_true_iff in Hq as [Ha Hq].
    apply negb_true_iff in Ha. cbn [lengthN] in Hlen.
    rewrite append_cons. cbn [scanFrom]. rewrite Ha.
    destruct (N.eqb_spec (n + 1) maxScanTokenSize) as [Hfull | Hfull]; [done |].
    apply IH; [done | lia | lia].
Qed.

Lemma Scan_lines_then (ls : list string) (tail : string) :
  Forall (fun l => noNewline l = true /\ (lengthN l < maxScanTokenSize)%N) ls ->
  Scan (unlines ls +:+ tail) = (dropCR <$> ls) ++ Scan tail.
Proof.
  induction 1 as [|l ls [Hl1 Hl2] _ IH]; [done |].
  cbn [unlines]. rewrite append_assoc, append_cons. unfold Scan at 1.
  rewrite scanFrom_line by (done || lia). rewrite fmap_cons. cbn [app revApp].
  f_equal. exact IH.
Qed.

Example Scan_crlf_and_last_line :
  Scan (String "a" (String (ascii_of_nat 13) (String (ascii_of_nat 10)
         (String (ascii_of_nat 10) (String "b" (String (ascii_of_nat 13) ""))))))
  = ["a"; ""; "b"].
Proof. reflexivity. Qed.

Example Scan_empty : Scan "" = [].
Proof. reflexivity. Qed.

Example Scan_65535_bytes_then_line :
  length (Scan (unlines [N.iter 65535 (String "x") ""; lineAbc])) = 2%nat.
Proof. vm_compute. reflexivity. Qed.

(** X19. The scanner hands out, in order and without their line feed and a
    final carriage return, the lines of the output as long as each is
    shorter than 64 KiB; at the first line of which 65536 bytes hold no line
    feed it stops, and hands out neither that line nor anything after
    it. *)
Theorem Scan_until_long_line (ls : list string) (long rest : string) :
  Forall (fun l => noNewline l = true /\ (lengthN l < maxScanTokenSize)%N) ls ->
  Scan (unlines ls) = dropCR <$> ls
  /\ (noNewline long = true -> lengthN long = maxScanTokenSize ->
      Scan (unlines ls +:+ long +:+ rest) = dropCR <$> ls).
Proof.
  intros Hls. split.
  - rewrite <- (append_nil_r (unlines ls)), (Scan_lines_then ls "" Hls).
    by rewrite app_nil_r.
  - intros Hlong Hlen. rewrite (Scan_lines_then ls _ Hls).
    unfold Scan. rewrite (scanFrom_too_long long "" 0 rest Hlong); [by rewrite app_nil_r | done | ].
    rewrite Hlen. lia.
Qed.

Lemma Scan_until_long_line_witness :
  Scan (unlines [lineAbc; lineNoInode]) = dropCR <$> [lineAbc; lineNoInode]
  /\ (noNewline longBlank = true -> lengthN longBlank = maxScanTokenSize ->
      Scan (unlines [lineAbc; lineNoInode] +:+ longBlank +:+ unlines [lineXyz])
      = dropCR <$> [lineAbc; lineNoInode]).
Proof.
  apply (Scan_until_long_line [lineAbc; lineNoInode] longBlank (unlines [lineXyz])).
  repeat constructor; vm_compute; reflexivity.
Defined.

(** C8. A line of 64 KiB or more in which the pattern does not occur: the
    scan ends at it.  The listing returns without error, with no record
    and no warning, although the next line is a well-formed one that, listed
    alone, gives a record.  The line is not skipped with a warning and the
    lines after it are not parsed. *)
Theorem long_unmatched_line_ends_listing :
  ~ hasInodePattern lineLongNoInode
  /\ listCurrentConnections (envAt 0 [lineLongNoInode; lineAbc]) ∅ = (Some [], ∅, [])
  /\ listCurrentConnections (envAt 0 [lineAbc]) ∅
     = (Some [mkConn "101" 0 0 true idAbc], ∅, []).
Proof.
  split_and!.
  - intros H. apply FindStringSubmatch_spec in H. apply H. vm_compute. reflexivity.
  - vm_compute. reflexivity.
  - vm_compute. reflexivity.
Qed.

(** C9. A line of 64 KiB or more that holds the pattern and has a single
    field: the scan ends at it.  No record is produced for it, but the
    well-formed line after it is not parsed either: the listing returns no
    record at all. *)
Theorem long_short_line_ends_listing :
  hasInodePattern lineLongShort
  /\ (length (Fields lineLongShort) < 5)%nat
  /\ listCurrentConnections (envAt 0 [lineLongShort; lineAbc]) ∅ = (Some [], ∅, [])
  /\ listCurrentConnections (envAt 0 [lineAbc]) ∅
     = (Some [mkConn "101" 0 0 true idAbc], ∅, []).
Proof.
  split_and!.
  - apply FindStringSubmatch_spec. vm_compute. discriminate.
  - vm_compute. lia.
  - vm_compute. reflexivity.
  - vm_compute. reflexivity.
Qed.
